(** * TrucoCarta client: connection manager, game screen and lobby screen

    A shallow embedding of [src/lib/socket.ts] (the [SocketManager] singleton
    and the [GameScreen] component) and of
    [src/components/truco/lobby-screen.tsx] (the [LobbyScreen] component).

    React state ([useState], [useRef]) is a record; every event handler, user
    action and acknowledgement callback is a pure function on that record.
    What a handler does to the outside world (requests emitted on the socket,
    timers scheduled, toasts shown, console output, calls of the [onJoinRoom]
    prop) is appended to a list kept in the same record, so that a theorem can
    speak about it.  A handler reads the state of the latest render; React
    renders again between two events, so that is the current state.  The one
    closure that outlives its render, the lobby's effect, is handed the value
    it captured as an argument. *)

From stdpp Require Import base numbers strings list gmap pretty.

(** ** JavaScript truthiness of strings and the [a || b] idiom *)

Module Js.

(** A string is truthy unless it is empty. *)
Definition truthy (s : string) : bool := negb (String.eqb s "").

(** [null] / [undefined] are falsy. *)
Definition truthy_opt (o : option string) : bool :=
  match o with
  | Some s => truthy s
  | None => false
  end.

(** [o || d] where [o] is a string or absent and [d] is a string. *)
Definition or_else (o : option string) (d : string) : string :=
  match o with
  | Some s => if truthy s then s else d
  | None => d
  end.

End Js.

(** ** The connection manager ([class SocketManager], socket.ts 34-57) *)

Module SocketManager.

(** A handle returned by [io(url, opts)].  [ref] is the identity of the
    JavaScript object: the library hands out a new object on every call. *)
Record Socket := mkSocket {
  ref : nat;
  url : string;
  transports : list string;
}.

(** The manager's two private fields, together with the part of the outside
    world its methods act on: how many handles [io] has created so far, and
    on which handles [disconnect()] has been called. *)
Record t := mk {
  socket : option Socket;
  serverUrl : string;
  io_created : nat;
  closed : list nat;
}.

(** [io(`${serverUrl}/game`, { transports: ["websocket", "polling"] })] *)
Definition io (u : string) (created : nat) : Socket :=
  {| ref := created; url := u; transports := ["websocket"; "polling"] |}.

(** [new SocketManager()]: [socket = null],
    [serverUrl = process.env.NEXT_PUBLIC_SERVER_URL || "http://localhost:3001"]. *)
Definition new (env_url : option string) : t :=
  {| socket := None;
     serverUrl := Js.or_else env_url "http://localhost:3001";
     io_created := 0;
     closed := [] |}.

Definition connect (m : t) : Socket * t :=
  match socket m with
  | None =>
      let s := io (serverUrl m +:+ "/game") (io_created m) in
      (s, {| socket := Some s;
             serverUrl := serverUrl m;
             io_created := S (io_created m);
             closed := closed m |})
  | Some s => (s, m)
  end.

Definition disconnect (m : t) : t :=
  match socket m with
  | Some s =>
      {| socket := None;
         serverUrl := serverUrl m;
         io_created := io_created m;
         closed := closed m ++ [ref s] |}
  | None => m
  end.

Definition getSocket (m : t) : option Socket := socket m.

(** Calls a client of the manager can make, and their effect in sequence. *)
Inductive call := Connect | Disconnect | GetSocket.

Definition exec (c : call) (m : t) : t :=
  match c with
  | Connect => snd (connect m)
  | Disconnect => disconnect m
  | GetSocket => m
  end.

Definition run (cs : list call) (m : t) : t := foldl (λ m c, exec c m) m cs.

(** [n] calls of [connect()] in a row: the handles returned, oldest first,
    and the manager afterwards. *)
Fixpoint connect_many (n : nat) (m : t) : list Socket * t :=
  match n with
  | 0 => ([], m)
  | S n' =>
      let '(s, m1) := connect m in
      let '(ss, m2) := connect_many n' m1 in
      (s :: ss, m2)
  end.

(** Every handle the manager has ever held was created by [io] before. *)
Definition wf (m : t) : Prop :=
  (∀ s, socket m = Some s → ref s < io_created m) ∧
  (∀ r, r ∈ closed m → r < io_created m).

(** How many handles are alive: the cached one, if any. *)
Definition live (m : t) : nat :=
  match socket m with
  | Some _ => 1
  | None => 0
  end.

(** The bookkeeping of handles adds up: none is torn down twice, every one
    torn down was created, the ones created are the ones torn down and the
    live one, and the live one is not among those torn down. *)
Definition consistent (m : t) : Prop :=
  NoDup (closed m) ∧
  (∀ r, r ∈ closed m → r < io_created m) ∧
  io_created m = length (closed m) + live m ∧
  (∀ s, socket m = Some s → (ref s ∉ closed m) ∧ ref s < io_created m).

(** The handles are all for the [/game] namespace of one server. *)
Definition endpoint_of (server : string) (m : t) : Prop :=
  serverUrl m = server ∧
  ∀ s, socket m = Some s →
    url s = server +:+ "/game" ∧ transports s = ["websocket"; "polling"].

End SocketManager.

(** ** Shared view-model types ([@/types/truco]) *)

Module Truco.

Inductive Suit := espadas | bastos | oros | copas.

(** Modelled from the spec: the declaration of [Card] in [@/types/truco] is
    not among the sources.  A card carries the identifier that [play:card]
    sends and the two fields the card component reads ([suit], [rank]). *)
Record Card := mkCard {
  card_id : string;
  suit : Suit;
  rank : Z;
}.

Record GameConfig := mkConfig {
  maxPoints : Z;
  withFlor : bool;
}.

(** Modelled from the spec: [GameState] is declared in [@/types/truco] too.
    The screens only ever hold a [Partial<GameState>], an object whose keys
    (turn owner, phase, scores, envido points, configuration) may each be
    present or not; it is a finite map from key to JSON value. *)
#[warnings="-register-all"]
Inductive Value :=
  | VStr (s : string)
  | VNum (n : Z)
  | VBool (b : bool)
  | VObj (fields : list (string * Value)).

(** [v === s] for a possibly absent property [v] and a string [s]. *)
Definition strict_eq_string (v : option Value) (s : string) : bool :=
  match v with
  | Some (VStr t) => String.eqb t s
  | _ => false
  end.

End Truco.

(** ** The game screen ([GameScreen], socket.ts 95-580) *)

Module GameScreen.
Import Truco.

Module Player.
Record t := mk {
  id : string;
  name : string;
  connected : bool;
}.
End Player.

Module Room.
Inductive Status := waiting | playing | ended.
Record t := mk {
  id : string;
  players : list Player.t;
  status : Status;
  playerCount : Z;
}.
End Room.

Record GameMessage := mkMessage {
  type : string;
  text : string;
  timestamp : Z;
}.

Inductive EnvidoType := envido | real_envido | falta_envido.

Definition envido_name (t : EnvidoType) : string :=
  match t with
  | envido => "envido"
  | real_envido => "real_envido"
  | falta_envido => "falta_envido"
  end.

(** Client-to-server requests the screen emits, with their payload. *)
Inductive Request :=
  | player_join (roomId name : string)
  | game_start (roomId : string)
  | play_card (roomId cardId : string)
  | call_truco (roomId : string)
  | call_envido (roomId : string) (type : EnvidoType)
  | call_flor (roomId : string)
  | call_response (roomId : string) (accept : bool)
  | phase_skip (roomId : string).

(** The acknowledgement callback passed along with a request: the one of the
    [connect] handler, the one of [attemptReconnect], or the one shared in
    shape by the eight action handlers, which differ in the fallback text. *)
Inductive Callback :=
  | join_on_connect
  | join_on_reconnect
  | action_done (fallback : string).

(** [response: any], with the properties the callbacks read. *)
Record Response := mkResponse {
  success : bool;
  error : option string;
  resp_room : option Room.t;
  resp_gameState : option (gmap string Value);
  resp_hand : option (list Card);
}.

Record Toast := mkToast {
  title : string;
  description : string;
  variant : option string;
}.

(** What a handler does besides setting state. *)
Inductive effect :=
  | Emit (r : Request) (cb : Callback)
  | SetTimeout (delay : Z)
  | ShowToast (t : Toast)
  | ConsoleError (label detail : string).

(** The component's hooks (socket.ts 96-104), the manager singleton it
    calls, and the effects so far, oldest first. *)
Record state := mkState {
  room : option Room.t;
  gameState : gmap string Value;
  playerHand : list Card;
  messages : list GameMessage;
  connected : bool;
  currentPlayerId : string;
  reconnecting : bool;
  actionInProgress : option string;
  reconnectAttempts : nat;
  manager : SocketManager.t;
  effects : list effect;
}.

Definition set_room (v : option Room.t) (s : state) : state :=
  mkState v (gameState s) (playerHand s) (messages s) (connected s)
    (currentPlayerId s) (reconnecting s) (actionInProgress s)
    (reconnectAttempts s) (manager s) (effects s).

Definition set_gameState (v : gmap string Value) (s : state) : state :=
  mkState (room s) v (playerHand s) (messages s) (connected s)
    (currentPlayerId s) (reconnecting s) (actionInProgress s)
    (reconnectAttempts s) (manager s) (effects s).

Definition set_playerHand (v : list Card) (s : state) : state :=
  mkState (room s) (gameState s) v (messages s) (connected s)
    (currentPlayerId s) (reconnecting s) (actionInProgress s)
    (reconnectAttempts s) (manager s) (effects s).

Definition set_messages (v : list GameMessage) (s : state) : state :=
  mkState (room s) (gameState s) (playerHand s) v (connected s)
    (currentPlayerId s) (reconnecting s) (actionInProgress s)
    (reconnectAttempts s) (manager s) (effects s).

Definition set_connected (v : bool) (s : state) : state :=
  mkState (room s) (gameState s) (playerHand s) (messages s) v
    (currentPlayerId s) (reconnecting s) (actionInProgress s)
    (reconnectAttempts s) (manager s) (effects s).

Definition set_currentPlayerId (v : string) (s : state) : state :=
  mkState (room s) (gameState s) (playerHand s) (messages s) (connected s) v
    (reconnecting s) (actionInProgress s) (reconnectAttempts s) (manager s)
    (effects s).

Definition set_reconnecting (v : bool) (s : state) : state :=
  mkState (room s) (gameState s) (playerHand s) (messages s) (connected s)
    (currentPlayerId s) v (actionInProgress s) (reconnectAttempts s)
    (manager s) (effects s).

Definition set_actionInProgress (v : option string) (s : state) : state :=
  mkState (room s) (gameState s) (playerHand s) (messages s) (connected s)
    (currentPlayerId s) (reconnecting s) v (reconnectAttempts s) (manager s)
    (effects s).

Definition set_reconnectAttempts (v : nat) (s : state) : state :=
  mkState (room s) (gameState s) (playerHand s) (messages s) (connected s)
    (currentPlayerId s) (reconnecting s) (actionInProgress s) v (manager s)
    (effects s).

Definition set_manager (v : SocketManager.t) (s : state) : state :=
  mkState (room s) (gameState s) (playerHand s) (messages s) (connected s)
    (currentPlayerId s) (reconnecting s) (actionInProgress s)
    (reconnectAttempts s) v (effects s).

Definition set_effects (v : list effect) (s : state) : state :=
  mkState (room s) (gameState s) (playerHand s) (messages s) (connected s)
    (currentPlayerId s) (reconnecting s) (actionInProgress s)
    (reconnectAttempts s) (manager s) v.

Definition add_effect (e : effect) (s : state) : state :=
  set_effects (effects s ++ [e]) s.

(** The delays of the timers scheduled, the toasts shown and the requests
    emitted so far, oldest first. *)
Definition timeouts (l : list effect) : list Z :=
  omap (λ e, match e with SetTimeout d => Some d | _ => None end) l.

Definition shown (l : list effect) : list Toast :=
  omap (λ e, match e with ShowToast t => Some t | _ => None end) l.

Definition requests (l : list effect) : list Request :=
  omap (λ e, match e with Emit r _ => Some r | _ => None end) l.

(** The initial values of the hooks, around the process-wide manager. *)
Definition init (m : SocketManager.t) : state :=
  {| room := None;
     gameState := ∅;
     playerHand := [];
     messages := [];
     connected := false;
     currentPlayerId := "";
     reconnecting := false;
     actionInProgress := None;
     reconnectAttempts := 0;
     manager := m;
     effects := [] |}.

Definition maxReconnectAttempts : nat := 5.

(** [Math.min(1000 * Math.pow(2, attempts), 10000)] *)
Definition delay (attempts : nat) : Z :=
  Z.min (1000 * 2 ^ Z.of_nat attempts) 10000.

Definition reconnect_failed : Toast :=
  {| title := "Error de conexión";
     description :=
       "No se pudo reconectar al servidor. Intenta recargar la página.";
     variant := Some "destructive" |}.

Definition reconnected : Toast :=
  {| title := "Reconectado";
     description := "Te has reconectado exitosamente al juego.";
     variant := None |}.

Definition error_toast (msg : string) : Toast :=
  {| title := "Error"; description := msg; variant := Some "destructive" |}.

Definition has_socket (s : state) : bool :=
  bool_decide (is_Some (SocketManager.getSocket (manager s))).

(** [!!actionInProgress] *)
Definition in_flight (s : state) : bool :=
  Js.truthy_opt (actionInProgress s).

(** [gameState.turnPlayerId === currentPlayerId] *)
Definition isMyTurn (s : state) : bool :=
  strict_eq_string (gameState s !! "turnPlayerId") (currentPlayerId s).

(** The guard of [handlePlayCard] (socket.ts 275), condition by condition. *)
Definition may_play (s : state) : Prop :=
  is_Some (SocketManager.getSocket (manager s)) ∧
  Js.truthy_opt (actionInProgress s) = false ∧
  gameState s !! "turnPlayerId" = Some (VStr (currentPlayerId s)).

(** [`${scores[winnerId]}`], for a score that is absent or a whole number
    below 10^21 in magnitude (from there on JavaScript prints an exponent). *)
Definition show_score (n : option Z) : string :=
  match n with
  | Some n => pretty n
  | None => "undefined"
  end.

Section Handlers.

(** The component's props. *)
Context (roomId playerName : string).

(** socket.ts 108-138, up to the call of [setTimeout]. *)
Definition attemptReconnect (s : state) : state :=
  if maxReconnectAttempts <=? reconnectAttempts s then
    add_effect (ShowToast reconnect_failed) s
  else
    let s := set_reconnecting true s in
    let s := set_reconnectAttempts (S (reconnectAttempts s)) s in
    add_effect (SetTimeout (delay (reconnectAttempts s))) s.

(** socket.ts 122-137: the function handed to [setTimeout].  The handle
    [connect()] returns is an object, hence truthy. *)
Definition reconnect_timer (s : state) : state :=
  let '(_, m) := SocketManager.connect (manager s) in
  add_effect (Emit (player_join roomId playerName) join_on_reconnect)
    (set_manager m s).

(** socket.ts 126-134 *)
Definition ack_join_reconnect (r : Response) (s : state) : state :=
  if success r then
    let s := set_room (resp_room r) s in
    let s := set_reconnecting false s in
    let s := set_reconnectAttempts 0 s in
    add_effect (ShowToast reconnected) s
  else s.

(** socket.ts 141-142: the effect body before the listeners are registered;
    [socket_id] is [socket.id], absent until the transport is up. *)
Definition mount (socket_id : option string) (s : state) : state :=
  let '(_, m) := SocketManager.connect (manager s) in
  set_currentPlayerId (Js.or_else socket_id "") (set_manager m s).

(** socket.ts 144-166 *)
Definition on_connect (s : state) : state :=
  let s := set_connected true s in
  let s := set_reconnecting false s in
  let s := set_reconnectAttempts 0 s in
  add_effect (Emit (player_join roomId playerName) join_on_connect) s.

(** socket.ts 150-164 *)
Definition ack_join_connect (r : Response) (s : state) : state :=
  if success r then
    let s := set_room (resp_room r) s in
    let s := match resp_gameState r with
             | Some g => set_gameState g s
             | None => s
             end in
    match resp_hand r with
    | Some h => set_playerHand h s
    | None => s
    end
  else
    add_effect
      (ShowToast (error_toast (Js.or_else (error r) "No se pudo unir a la sala")))
      s.

(** socket.ts 168-174 *)
Definition on_disconnect (reason : string) (s : state) : state :=
  let s := set_connected false s in
  if String.eqb reason "io server disconnect" then attemptReconnect s else s.

(** socket.ts 176-191 *)
Definition on_room_update (updatedRoom : Room.t) (now : Z) (s : state) : state :=
  let s := set_room (Some updatedRoom) s in
  let offline := λ p, negb (Player.connected p) in
  if existsb offline (Room.players updatedRoom) then
    match List.find offline (Room.players updatedRoom) with
    | Some disconnectedPlayer =>
        set_messages
          (messages s ++
             [{| type := "info";
                 text := Player.name disconnectedPlayer +:+ " se desconectó";
                 timestamp := now |}])
          s
    | None => s
    end
  else s.

(** socket.ts 193-196: [{ ...prev, ...updatedGameState }] keeps every key of
    [prev] and lets the keys of the update win. *)
Definition on_game_update (updatedGameState : gmap string Value) (s : state)
  : state :=
  let s := set_gameState (updatedGameState ∪ gameState s) s in
  set_actionInProgress None s.

(** socket.ts 198-200 *)
Definition on_game_hand (hand : list Card) (s : state) : state :=
  set_playerHand hand s.

(** socket.ts 202-204 *)
Definition on_game_message (message : GameMessage) (s : state) : state :=
  set_messages (messages s ++ [message]) s.

(** socket.ts 206-223 *)
Definition on_game_ended (winnerId : string) (scores : gmap string Z)
    (now : Z) (s : state) : state :=
  let winner :=
    match room s with
    | Some r => List.find (λ p, String.eqb (Player.id p) winnerId) (Room.players r)
    | None => None
    end in
  let s :=
    match winner with
    | Some w =>
        let s :=
          set_messages
            (messages s ++
               [{| type := "winner";
                   text := "¡Partida terminada! " +:+ Player.name w +:+
                           " ganó con " +:+ show_score (scores !! winnerId) +:+
                           " puntos";
                   timestamp := now |}])
            s in
        add_effect
          (ShowToast {| title := "Partida terminada";
                        description := Player.name w +:+ " ganó la partida";
                        variant := None |})
          s
    | None => s
    end in
  set_actionInProgress None s.

(** socket.ts 225-241 *)
Definition on_error (message : string) (now : Z) (s : state) : state :=
  let s := add_effect (ConsoleError "Socket error:" message) s in
  let s :=
    set_messages
      (messages s ++
         [{| type := "info"; text := "Error: " +:+ message; timestamp := now |}])
      s in
  let s := set_actionInProgress None s in
  add_effect (ShowToast (error_toast message)) s.

(** The body every action handler runs once its guard has passed:
    [setActionInProgress(flag); socket.emit(request, callback)]. *)
Definition submit (flag : string) (r : Request) (fallback : string) (s : state)
  : state :=
  add_effect (Emit r (action_done fallback)) (set_actionInProgress (Some flag) s).

(** The callback of every action handler (e.g. socket.ts 259-268). *)
Definition ack_action (fallback : string) (r : Response) (s : state) : state :=
  let s :=
    if success r then s
    else add_effect (ShowToast (error_toast (Js.or_else (error r) fallback))) s in
  set_actionInProgress None s.

(** socket.ts 255-270 *)
Definition handleStartGame (s : state) : state :=
  if has_socket s && negb (in_flight s) then
    submit "starting" (game_start roomId) "No se pudo iniciar la partida" s
  else s.

(** socket.ts 272-290 *)
Definition handlePlayCard (cardId : string) (s : state) : state :=
  if has_socket s && negb (in_flight s) && isMyTurn s then
    submit "playing-card" (play_card roomId cardId) "No se pudo jugar la carta" s
  else s.

(** socket.ts 292-307 *)
Definition handleCallTruco (s : state) : state :=
  if has_socket s && negb (in_flight s) then
    submit "calling-truco" (call_truco roomId) "No se pudo cantar truco" s
  else s.

(** socket.ts 309-327 *)
Definition handleCallEnvido (type : EnvidoType) (s : state) : state :=
  if has_socket s && negb (in_flight s) then
    submit ("calling-" +:+ envido_name type) (call_envido roomId type)
      "No se pudo cantar envido" s
  else s.

(** socket.ts 329-344 *)
Definition handleCallFlor (s : state) : state :=
  if has_socket s && negb (in_flight s) then
    submit "calling-flor" (call_flor roomId) "No se pudo cantar flor" s
  else s.

(** socket.ts 346-361 *)
Definition handleSkipPhase (s : state) : state :=
  if has_socket s && negb (in_flight s) then
    submit "skipping-phase" (phase_skip roomId) "No se pudo pasar la fase" s
  else s.

(** socket.ts 363-378 *)
Definition handleAcceptCall (s : state) : state :=
  if has_socket s && negb (in_flight s) then
    submit "accepting-call" (call_response roomId true)
      "No se pudo aceptar la jugada" s
  else s.

(** socket.ts 380-395 *)
Definition handleRejectCall (s : state) : state :=
  if has_socket s && negb (in_flight s) then
    submit "rejecting-call" (call_response roomId false)
      "No se pudo rechazar la jugada" s
  else s.

(** The user's possible actions on the screen, and the handler of each. *)
Inductive UserAction :=
  | StartGame
  | PlayCard (cardId : string)
  | CallTruco
  | CallEnvido (type : EnvidoType)
  | CallFlor
  | SkipPhase
  | AcceptCall
  | RejectCall.

Definition handle (a : UserAction) : state → state :=
  match a with
  | StartGame => handleStartGame
  | PlayCard cardId => handlePlayCard cardId
  | CallTruco => handleCallTruco
  | CallEnvido type => handleCallEnvido type
  | CallFlor => handleCallFlor
  | SkipPhase => handleSkipPhase
  | AcceptCall => handleAcceptCall
  | RejectCall => handleRejectCall
  end.

(** The acknowledgement of a request runs the callback sent with it. *)
Definition acknowledge (cb : Callback) : Response → state → state :=
  match cb with
  | join_on_connect => ack_join_connect
  | join_on_reconnect => ack_join_reconnect
  | action_done fallback => ack_action fallback
  end.

(** Everything that can happen to a mounted game screen. *)
Inductive event :=
  | Mount (socket_id : option string)
  | SocketConnect
  | SocketDisconnect (reason : string)
  | RoomUpdate (room : Room.t) (now : Z)
  | GameUpdate (gameState : gmap string Value)
  | GameHand (hand : list Card)
  | GameMessageIn (message : GameMessage)
  | GameEnded (winnerId : string) (scores : gmap string Z) (now : Z)
  | ErrorIn (message : string) (now : Z)
  | TimerFired
  | Acked (cb : Callback) (r : Response)
  | Clicked (a : UserAction).

Definition step (e : event) : state → state :=
  match e with
  | Mount socket_id => mount socket_id
  | SocketConnect => on_connect
  | SocketDisconnect reason => on_disconnect reason
  | RoomUpdate r now => on_room_update r now
  | GameUpdate g => on_game_update g
  | GameHand h => on_game_hand h
  | GameMessageIn m => on_game_message m
  | GameEnded w sc now => on_game_ended w sc now
  | ErrorIn m now => on_error m now
  | TimerFired => reconnect_timer
  | Acked cb r => acknowledge cb r
  | Clicked a => handle a
  end.

Definition run (es : list event) (s : state) : state :=
  foldl (λ s e, step e s) s es.

(** What one event adds to the effects. *)
Definition new_effects (e : event) (s : state) : list effect :=
  drop (length (effects s)) (effects (step e s)).

(** The disconnect that starts a reconnect attempt. *)
Definition forced (e : event) : bool :=
  match e with
  | SocketDisconnect reason => String.eqb reason "io server disconnect"
  | _ => false
  end.

(** The two places that set [reconnectAttempts.current] back to 0: the
    [connect] handler and a successful rejoin. *)
Definition resets (e : event) : bool :=
  match e with
  | SocketConnect => true
  | Acked join_on_reconnect r => success r
  | _ => false
  end.

(** The traces a handle can deliver: its [disconnect] event fires only
    while it is connected, that is after a [connect] event with no
    [disconnect] since.  [up] says whether the handle is connected when the
    trace starts.  Nothing in the screen or in the manager calls
    [socket.connect()], so the handle's events are the server's and the
    library's alone. *)
Fixpoint deliverable (up : bool) (es : list event) : bool :=
  match es with
  | [] => true
  | SocketConnect :: es' => deliverable true es'
  | SocketDisconnect _ :: es' => up && deliverable false es'
  | _ :: es' => deliverable up es'
  end.

End Handlers.

#[global] Instance Toast_eq_dec : EqDecision Toast.
Proof. solve_decision. Defined.

(** How often the terminal notice has been shown. *)
Definition fatal_notices (l : list effect) : nat :=
  length (filter (λ t, t = reconnect_failed) (shown l)).

(** The flag, when set, holds one of the non-empty tags of the handlers. *)
Definition flag_ok (s : state) : Prop :=
  ∀ f, actionInProgress s = Some f → Js.truthy f = true.

(** *** What the screen derives from its state when it renders *)

(** The room a request names. *)
Definition request_room (r : Request) : string :=
  match r with
  | player_join roomId _ => roomId
  | game_start roomId => roomId
  | play_card roomId _ => roomId
  | call_truco roomId => roomId
  | call_envido roomId _ => roomId
  | call_flor roomId => roomId
  | call_response roomId _ => roomId
  | phase_skip roomId => roomId
  end.

(** The tags the action handlers store in [actionInProgress]. *)
Definition action_flags : list string :=
  ["starting"; "playing-card"; "calling-truco"; "calling-envido";
   "calling-real_envido"; "calling-falta_envido"; "calling-flor";
   "skipping-phase"; "accepting-call"; "rejecting-call"].

(** The property names every plain object inherits from
    [Object.prototype]. *)
Definition Object_prototype_keys : list string :=
  ["constructor"; "__defineGetter__"; "__defineSetter__"; "hasOwnProperty";
   "__lookupGetter__"; "__lookupSetter__"; "isPrototypeOf";
   "propertyIsEnumerable"; "toString"; "valueOf"; "__proto__";
   "toLocaleString"].

(** socket.ts 397-404: [room?.players.reduce(...) || {}], as the own
    properties of the object built.  A later player with the same id
    overwrites an earlier one.  [acc["__proto__"] = name] goes to the
    inherited setter, which ignores a string: it stores nothing. *)
Definition playerNames (s : state) : gmap string string :=
  match room s with
  | Some r =>
      foldl
        (λ acc player,
           if String.eqb (Player.id player) "__proto__" then acc
           else <[Player.id player := Player.name player]> acc)
        ∅ (Room.players r)
  | None => ∅
  end.

(** What [playerNames[playerId] || "Jugador"] evaluates to: a text, or, for
    an id that is no own property but the name of an inherited one, that
    member of [Object.prototype], which is truthy and is no text. *)
Inductive NameShown :=
  | name_text (text : string)
  | inherited_member (key : string).

(** socket.ts 528, 541: [playerNames[playerId] || "Jugador"] *)
Definition displayName (s : state) (playerId : string) : NameShown :=
  match playerNames s !! playerId with
  | Some name => name_text (if Js.truthy name then name else "Jugador")
  | None =>
      if bool_decide (playerId ∈ Object_prototype_keys)
      then inherited_member playerId
      else name_text "Jugador"
  end.

(** [room?.status === st] *)
Definition status_is (st : Room.Status) (s : state) : bool :=
  match room s, st with
  | Some r, Room.waiting =>
      match Room.status r with Room.waiting => true | _ => false end
  | Some r, Room.playing =>
      match Room.status r with Room.playing => true | _ => false end
  | Some r, Room.ended =>
      match Room.status r with Room.ended => true | _ => false end
  | None, _ => false
  end.

(** socket.ts 407 *)
Definition canStartGame (s : state) : bool :=
  status_is Room.waiting s &&
  match room s with
  | Some r => (Room.playerCount r =? 2)%Z
  | None => false
  end.

(** socket.ts 408 *)
Definition gameInProgress (s : state) : bool := status_is Room.playing s.




End GameScreen.

(** ** The lobby screen ([LobbyScreen], lobby-screen.tsx) *)

Module Lobby.
Import Truco.

Record WaitingRoom := mkWaitingRoom {
  id : string;
  code : option string;
  playerCount : Z;
  createdAt : Z;
  config : GameConfig;
}.

Inductive Request :=
  | rooms_list
  | room_create (name : string) (config : GameConfig)
  | match_quick (config : GameConfig)
  | room_join_code (code name : string).

(** The acknowledgement callbacks.  [fetchWaitingRooms] reads [connected]
    from the render its closure was created in; a callback that calls it
    carries that value. *)
Inductive Callback :=
  | rooms_listed
  | room_created (connected_then : bool)
  | quick_matched
  | joined_by_code.

(** [response: any], with the properties the callbacks read. *)
Record Response := mkResponse {
  success : bool;
  error : option string;
  roomId : option string;
  resp_code : option string;
  rooms : option (list WaitingRoom);
}.

Inductive effect :=
  | Emit (r : Request) (cb : Callback)
  | ConsoleError (label : string) (detail : option string)
  | JoinRoom (roomId : option string)
  | ClipboardWrite (text : option string).

(** The component's hooks (lobby-screen.tsx 28-34), the manager singleton,
    and the effects so far, oldest first.  [createdRoomId] is absent once
    an acknowledgement without [roomId] has been stored in it. *)
Record state := mkState {
  joinRoomId : string;
  createdRoomId : option string;
  createdRoomCode : string;
  waitingRooms : list WaitingRoom;
  connected : bool;
  loading : bool;
  quickMatchLoading : bool;
  manager : SocketManager.t;
  effects : list effect;
}.

Definition set_joinRoomId (v : string) (s : state) : state :=
  mkState v (createdRoomId s) (createdRoomCode s) (waitingRooms s)
    (connected s) (loading s) (quickMatchLoading s) (manager s) (effects s).

Definition set_createdRoomId (v : option string) (s : state) : state :=
  mkState (joinRoomId s) v (createdRoomCode s) (waitingRooms s)
    (connected s) (loading s) (quickMatchLoading s) (manager s) (effects s).

Definition set_createdRoomCode (v : string) (s : state) : state :=
  mkState (joinRoomId s) (createdRoomId s) v (waitingRooms s) (connected s)
    (loading s) (quickMatchLoading s) (manager s) (effects s).

Definition set_waitingRooms (v : list WaitingRoom) (s : state) : state :=
  mkState (joinRoomId s) (createdRoomId s) (createdRoomCode s) v
    (connected s) (loading s) (quickMatchLoading s) (manager s) (effects s).

Definition set_connected (v : bool) (s : state) : state :=
  mkState (joinRoomId s) (createdRoomId s) (createdRoomCode s)
    (waitingRooms s) v (loading s) (quickMatchLoading s) (manager s)
    (effects s).

Definition set_loading (v : bool) (s : state) : state :=
  mkState (joinRoomId s) (createdRoomId s) (createdRoomCode s)
    (waitingRooms s) (connected s) v (quickMatchLoading s) (manager s)
    (effects s).

Definition set_quickMatchLoading (v : bool) (s : state) : state :=
  mkState (joinRoomId s) (createdRoomId s) (createdRoomCode s)
    (waitingRooms s) (connected s) (loading s) v (manager s) (effects s).

Definition set_manager (v : SocketManager.t) (s : state) : state :=
  mkState (joinRoomId s) (createdRoomId s) (createdRoomCode s)
    (waitingRooms s) (connected s) (loading s) (quickMatchLoading s) v
    (effects s).

Definition set_effects (v : list effect) (s : state) : state :=
  mkState (joinRoomId s) (createdRoomId s) (createdRoomCode s)
    (waitingRooms s) (connected s) (loading s) (quickMatchLoading s)
    (manager s) v.

Definition add_effect (e : effect) (s : state) : state :=
  set_effects (effects s ++ [e]) s.

(** The rooms the [onJoinRoom] prop was called with, oldest first. *)
Definition joins (l : list effect) : list (option string) :=
  omap (λ e, match e with JoinRoom r => Some r | _ => None end) l.

Definition init (m : SocketManager.t) : state :=
  {| joinRoomId := "";
     createdRoomId := Some "";
     createdRoomCode := "";
     waitingRooms := [];
     connected := false;
     loading := false;
     quickMatchLoading := false;
     manager := m;
     effects := [] |}.

Definition has_socket (s : state) : bool :=
  bool_decide (is_Some (SocketManager.getSocket (manager s))).

(** lobby-screen.tsx 164-166 *)
Definition getConfigBadge (c : GameConfig) : string :=
  pretty (maxPoints c) +:+ "pts" +:+ (if withFlor c then " +Flor" else "").

Section Handlers.

(** The component's props ([onJoinRoom] is the [JoinRoom] effect), and the
    two string built-ins the handlers call. *)
Context (playerName : string) (gameConfig : GameConfig).
Context (trim toUpperCase : string → string).

(** lobby-screen.tsx 37: the effect body before the listeners are
    registered. *)
Definition mount (s : state) : state :=
  let '(_, m) := SocketManager.connect (manager s) in
  set_manager m s.

(** lobby-screen.tsx 75-84; [connected_seen] is the [connected] of the
    render in which the calling closure was created. *)
Definition fetchWaitingRooms (connected_seen : bool) (s : state) : state :=
  if has_socket s && connected_seen then add_effect (Emit rooms_list rooms_listed) s
  else s.

(** lobby-screen.tsx 39-60: the listeners.  Those that call
    [fetchWaitingRooms] do so through the closure of the render in which the
    effect ran, whose [connected] they are given. *)
Definition on_connect (connected_seen : bool) (s : state) : state :=
  fetchWaitingRooms connected_seen (set_connected true s).

Definition on_disconnect (s : state) : state := set_connected false s.

Definition on_room_update (connected_seen : bool) (s : state) : state :=
  fetchWaitingRooms connected_seen s.

Definition on_rooms_list (rooms : option (list WaitingRoom)) (s : state)
  : state :=
  set_waitingRooms (default [] rooms) s.

Definition on_match_found (roomId : string) (s : state) : state :=
  add_effect (JoinRoom (Some roomId)) (set_quickMatchLoading false s).

(** lobby-screen.tsx 78-82 *)
Definition ack_rooms_list (r : Response) (s : state) : state :=
  if success r then set_waitingRooms (default [] (rooms r)) s else s.

(** lobby-screen.tsx 86-101 *)
Definition handleCreateRoom (s : state) : state :=
  if has_socket s then
    let seen := connected s in
    let s := set_loading true s in
    add_effect (Emit (room_create playerName gameConfig) (room_created seen)) s
  else s.

(** lobby-screen.tsx 91-100 *)
Definition ack_create_room (connected_then : bool) (r : Response) (s : state)
  : state :=
  let s := set_loading false s in
  if success r then
    let s := set_createdRoomId (roomId r) s in
    let s := set_createdRoomCode (Js.or_else (resp_code r) "") s in
    fetchWaitingRooms connected_then s
  else add_effect (ConsoleError "Failed to create room:" (error r)) s.

(** lobby-screen.tsx 103-121 *)
Definition handleQuickMatch (s : state) : state :=
  if has_socket s then
    let s := set_quickMatchLoading true s in
    add_effect (Emit (match_quick gameConfig) quick_matched) s
  else s.

(** lobby-screen.tsx 108-120 *)
Definition ack_quick_match (r : Response) (s : state) : state :=
  if success r then
    if Js.truthy_opt (roomId r) then
      add_effect (JoinRoom (roomId r)) (set_quickMatchLoading false s)
    else s
  else
    add_effect (ConsoleError "Failed to find quick match:" (error r))
      (set_quickMatchLoading false s).

(** lobby-screen.tsx 123-128 *)
Definition handleJoinRoom (roomId : option string) (s : state) : state :=
  let targetRoomId := Js.or_else roomId (trim (joinRoomId s)) in
  if Js.truthy targetRoomId then add_effect (JoinRoom (Some targetRoomId)) s
  else s.

(** lobby-screen.tsx 130-141 *)
Definition handleJoinByCode (s : state) : state :=
  if negb (has_socket s) || negb (Js.truthy (trim (joinRoomId s))) then s
  else
    add_effect
      (Emit (room_join_code (toUpperCase (trim (joinRoomId s))) playerName)
         joined_by_code)
      s.

(** lobby-screen.tsx 134-140 *)
Definition ack_join_code (r : Response) (s : state) : state :=
  if success r then add_effect (JoinRoom (roomId r)) s
  else add_effect (ConsoleError "Failed to join room by code:" (error r)) s.

(** lobby-screen.tsx 143-147 *)
Definition handleJoinCreatedRoom (s : state) : state :=
  if Js.truthy_opt (createdRoomId s) then add_effect (JoinRoom (createdRoomId s)) s
  else s.

(** [createdRoomCode || createdRoomId] *)
Definition shownCode (s : state) : option string :=
  if Js.truthy (createdRoomCode s) then Some (createdRoomCode s)
  else createdRoomId s.

(** lobby-screen.tsx 149-151 *)
Definition copyRoomCode (s : state) : state :=
  add_effect (ClipboardWrite (shownCode s)) s.

Definition acknowledge (cb : Callback) : Response → state → state :=
  match cb with
  | rooms_listed => ack_rooms_list
  | room_created connected_then => ack_create_room connected_then
  | quick_matched => ack_quick_match
  | joined_by_code => ack_join_code
  end.

(** lobby-screen.tsx 168-171 *)
Definition compatible (room : WaitingRoom) : bool :=
  (maxPoints (config room) =? maxPoints gameConfig)%Z &&
  Bool.eqb (withFlor (config room)) (withFlor gameConfig).

Definition compatibleRooms (s : state) : list WaitingRoom :=
  List.filter compatible (waitingRooms s).

(** *** What is on screen *)

(** A button: its caption, whether it is disabled, and the handler a click
    runs. *)
Record Button := mkButton {
  caption : string;
  disabled : bool;
  onClick : state → state;
}.

(** The "Crear Sala" card (lobby-screen.tsx 234-262): the create button, or
    the access code with the button that enters the room. *)
Inductive CreateCard :=
  | NotCreated (create : Button)
  | Created (accessCode : option string) (badge : string) (enter : Button).

Definition createCard (s : state) : CreateCard :=
  if negb (Js.truthy_opt (createdRoomId s)) then
    NotCreated
      {| caption := if loading s then "Creando..." else "Crear Nueva Sala";
         disabled := negb (connected s) || loading s;
         onClick := handleCreateRoom |}
  else
    Created (shownCode s) (getConfigBadge gameConfig)
      {| caption := "Entrar a la Sala";
         disabled := false;
         onClick := handleJoinCreatedRoom |}.

(** One entry of the "Salas Compatibles" list (lobby-screen.tsx 310-335). *)
Record RoomEntry := mkEntry {
  entry_key : string;
  entry_code : string;
  entry_count : Z;
  entry_badge : string;
  join : Button;
}.

Definition roomEntry (s : state) (room : WaitingRoom) : RoomEntry :=
  {| entry_key := id room;
     entry_code := Js.or_else (code room) (id room);
     entry_count := playerCount room;
     entry_badge := getConfigBadge (config room);
     join :=
       {| caption := if (2 <=? playerCount room)%Z then "Llena" else "Unirse";
          disabled := negb (connected s) || (2 <=? playerCount room)%Z;
          onClick := handleJoinRoom (Some (id room)) |} |}.

Definition roomEntries (s : state) : list RoomEntry :=
  map (roomEntry s) (compatibleRooms s).

(** lobby-screen.tsx 153-162, with [now] for [new Date().getTime()] and
    both instants in milliseconds.  [Math.floor] of the quotient is the
    floor division of [Z]. *)
Definition formatTimeAgo (now date : Z) : string :=
  let diffMs := (now - date)%Z in
  let diffMins := (diffMs / 60000)%Z in
  if (diffMins <? 1)%Z then "Ahora"
  else if (diffMins <? 60)%Z then pretty diffMins +:+ "m"
  else
    let diffHours := (diffMins / 60)%Z in
    pretty diffHours +:+ "h".

(** The three figures of the statistics card (lobby-screen.tsx 352-362). *)
Definition compatibleCount (s : state) : nat := length (compatibleRooms s).

Definition totalRooms (s : state) : nat := length (waitingRooms s).

Definition playersOnline (s : state) : Z :=
  foldl (λ acc room, (acc + playerCount room)%Z) 0%Z (waitingRooms s).

End Handlers.

End Lobby.

(** ** The page that switches between the screens ([TrucoGame]) *)

Module Page.
Import Truco.

Inductive Screen := start | lobby | game.

(** The four hooks of the page. *)
Record state := mkState {
  currentScreen : Screen;
  playerName : string;
  roomId : string;
  gameConfig : GameConfig;
}.

Definition init : state :=
  {| currentScreen := start;
     playerName := "";
     roomId := "";
     gameConfig := {| maxPoints := 15; withFlor := true |} |}.

Definition handleStartGame (name : string) (config : GameConfig) (s : state)
  : state :=
  {| currentScreen := lobby;
     playerName := name;
     roomId := roomId s;
     gameConfig := config |}.

Definition handleJoinRoom (id : string) (s : state) : state :=
  {| currentScreen := game;
     playerName := playerName s;
     roomId := id;
     gameConfig := gameConfig s |}.

Definition handleBackToLobby (s : state) : state :=
  {| currentScreen := lobby;
     playerName := playerName s;
     roomId := roomId s;
     gameConfig := gameConfig s |}.

(** The lobby's [onBack]: [() => setCurrentScreen("start")]. *)
Definition backToStart (s : state) : state :=
  {| currentScreen := start;
     playerName := playerName s;
     roomId := roomId s;
     gameConfig := gameConfig s |}.

(** The callbacks the page hands to its screens. *)
Inductive event :=
  | Start (name : string) (config : GameConfig)
  | JoinRoom (id : string)
  | BackToStart
  | BackToLobby.

Definition step (e : event) : state → state :=
  match e with
  | Start name config => handleStartGame name config
  | JoinRoom id => handleJoinRoom id
  | BackToStart => backToStart
  | BackToLobby => handleBackToLobby
  end.

Definition run (es : list event) (s : state) : state :=
  foldl (λ s e, step e s) s es.

(** Which screen is rendered with which callback: the start screen gets
    [onStart], the lobby [onJoinRoom] and [onBack], the game screen
    [onBack]. *)
Definition offered (s : state) (e : event) : bool :=
  match currentScreen s, e with
  | start, Start _ _ => true
  | lobby, JoinRoom _ => true
  | lobby, BackToStart => true
  | game, BackToLobby => true
  | _, _ => false
  end.

(** A trace in which every callback is called from the screen on display. *)
Fixpoint navigation (es : list event) (s : state) : bool :=
  match es with
  | [] => true
  | e :: es' => offered s e && navigation es' (step e s)
  end.

(** The arguments of the last [onStart] and of the last [onJoinRoom] of a
    trace. *)
Definition last_start (es : list event) : option (string * GameConfig) :=
  last (omap (λ e, match e with Start n c => Some (n, c) | _ => None end) es).

Definition last_join (es : list event) : option string :=
  last (omap (λ e, match e with JoinRoom i => Some i | _ => None end) es).

End Page.

(** ** A playing card ([CardComponent]) *)

Module CardView.
Import Truco.

Definition SUIT_SYMBOLS (s : Suit) : string :=
  match s with
  | espadas => "♠"
  | bastos => "♣"
  | oros => "♦"
  | copas => "♥"
  end.

Definition SUIT_COLORS (s : Suit) : string :=
  match s with
  | espadas => "text-gray-900"
  | bastos => "text-gray-900"
  | oros => "text-amber-600"
  | copas => "text-red-600"
  end.

(** The table has no entry for 8 and 9. *)
Definition RANK_DISPLAY (rank : Z) : option string :=
  match rank with
  | 1 => Some "A"
  | 2 => Some "2"
  | 3 => Some "3"
  | 4 => Some "4"
  | 5 => Some "5"
  | 6 => Some "6"
  | 7 => Some "7"
  | 10 => Some "J"
  | 11 => Some "Q"
  | 12 => Some "K"
  | _ => None
  end%Z.

Inductive Size := sm | md | lg.

Definition sizeClasses (size : Size) : string :=
  match size with
  | sm => "w-12 h-16 text-xs"
  | md => "w-16 h-24 text-sm"
  | lg => "w-20 h-28 text-base"
  end.

Section Component.

(** The type of click handlers, and the class-name helper [cn] of
    [@/lib/utils], which is given its arguments with the falsy ones absent. *)
Context {Handler : Type} (cn : list (option string) → string).

Record CardProps := mkProps {
  card : Card;
  onClick : option Handler;
  disabled : bool;
  size : Size;
  faceDown : bool;
}.

(** The defaults of the destructured props. *)
Definition defaults (c : Card) (h : option Handler) : CardProps :=
  {| card := c; onClick := h; disabled := false; size := md;
     faceDown := false |}.

(** What is rendered: a [div] with its class, its click handler and the
    texts inside, each with its class. *)
Record Element := mkElement {
  className : string;
  handler : option Handler;
  children : list (string * option string);
}.

Definition when (b : bool) (c : string) : option string :=
  if b then Some c else None.

Definition CardComponent (p : CardProps) : Element :=
  if faceDown p then
    {| className :=
         cn [Some "bg-gradient-to-br from-blue-900 to-blue-700 border-2 border-blue-800 rounded-lg flex items-center justify-center cursor-pointer shadow-md";
             Some (sizeClasses (size p));
             when (disabled p) "opacity-50 cursor-not-allowed"];
       handler := if disabled p then None else onClick p;
       children := [("text-blue-200 font-bold text-lg", Some "?")] |}
  else
    let colour := SUIT_COLORS (suit (card p)) in
    {| className :=
         cn [Some "bg-white border-2 border-gray-300 rounded-lg flex flex-col items-center justify-between p-1 cursor-pointer shadow-md hover:shadow-lg transition-all duration-200";
             Some (sizeClasses (size p));
             when (disabled p) "opacity-50 cursor-not-allowed";
             when (bool_decide (is_Some (onClick p)) && negb (disabled p))
               "hover:scale-105 hover:border-primary"];
       handler := if disabled p then None else onClick p;
       children :=
         [(cn [Some "font-bold"; Some colour], RANK_DISPLAY (rank (card p)));
          (cn [Some "text-2xl"; Some colour],
           Some (SUIT_SYMBOLS (suit (card p))));
          (cn [Some "font-bold rotate-180"; Some colour],
           RANK_DISPLAY (rank (card p)))] |}.

End Component.

End CardView.

(** ** Concrete screens and messages, for the examples below *)

Module Examples.
Import Truco.

Definition manager0 : SocketManager.t := SocketManager.new None.

(** A game screen for room "R1" and player "Ana", mounted and connected. *)
Definition game0 : GameScreen.state :=
  GameScreen.run "R1" "Ana"
    [GameScreen.Mount None; GameScreen.SocketConnect]
    (GameScreen.init manager0).

Definition refused : GameScreen.Response :=
  {| GameScreen.success := false;
     GameScreen.error := Some "Sala incompleta";
     GameScreen.resp_room := None;
     GameScreen.resp_gameState := None;
     GameScreen.resp_hand := None |}.

(** A forced disconnect, the timer firing, the rejoin refused. *)
Definition failed_attempt : list GameScreen.event :=
  [GameScreen.SocketDisconnect "io server disconnect";
   GameScreen.TimerFired;
   GameScreen.Acked GameScreen.join_on_reconnect refused].

Definition five_failed_attempts : list GameScreen.event :=
  failed_attempt ++ failed_attempt ++ failed_attempt ++ failed_attempt ++
  failed_attempt.

(** A lobby for player "Ana", mounted and connected. *)
Definition lobby0 : Lobby.state :=
  Lobby.on_connect false (Lobby.mount (Lobby.init manager0)).

Definition config15 : GameConfig := {| maxPoints := 15; withFlor := true |}.

Definition lobby_refused : Lobby.Response :=
  {| Lobby.success := false;
     Lobby.error := Some "Sala llena";
     Lobby.roomId := None;
     Lobby.resp_code := None;
     Lobby.rooms := None |}.

Definition lobby_created : Lobby.Response :=
  {| Lobby.success := true;
     Lobby.error := None;
     Lobby.roomId := Some "R1";
     Lobby.resp_code := Some "ABC123";
     Lobby.rooms := None |}.

Definition room (i : string) (n : Z) (c : GameConfig) : Lobby.WaitingRoom :=
  {| Lobby.id := i; Lobby.code := None; Lobby.playerCount := n;
     Lobby.createdAt := 0; Lobby.config := c |}.

End Examples.

(** * Properties *)

(** ** JavaScript helpers *)

Lemma truthy_nonempty s : Js.truthy s = true ↔ s ≠ "".
Proof.
  unfold Js.truthy. destruct (String.eqb_spec s ""); simpl; split; congruence.
Qed.

(** [o || d] is [o] when [o] is a non-empty string, and [d] otherwise. *)
Lemma or_else_some s d : s ≠ "" → Js.or_else (Some s) d = s.
Proof. intros H%truthy_nonempty. simpl. by rewrite H. Qed.

Lemma or_else_absent o d : o = None ∨ o = Some "" → Js.or_else o d = d.
Proof. by intros [-> | ->]. Qed.

(** ** The connection manager *)

Section SocketManagerFacts.
Import SocketManager.

Lemma wf_new env_url : wf (new env_url).
Proof.
  split; simpl; [discriminate |].
  intros r Hr. by apply elem_of_nil in Hr.
Qed.

Lemma wf_exec c m : wf m → wf (exec c m).
Proof.
  intros Hm. destruct c; simpl; [| | exact Hm]; destruct Hm as [Hs Hc].
  - unfold connect. destruct (socket m) as [s|] eqn:E; simpl.
    { unfold wf. rewrite E. by split. }
    split; simpl.
    + intros s [= <-]. simpl. lia.
    + intros r Hr. specialize (Hc r Hr). lia.
  - unfold disconnect. destruct (socket m) as [s|] eqn:E; simpl.
    2:{ unfold wf. rewrite E. by split. }
    split; simpl; [discriminate |].
    intros r [Hr | Hr%list_elem_of_singleton]%elem_of_app; [by apply Hc |].
    subst r. by apply Hs.
Qed.

Lemma wf_run cs : ∀ m, wf m → wf (run cs m).
Proof.
  induction cs as [| c cs IH]; intros m Hm; simpl; [done |].
  apply IH. by apply wf_exec.
Qed.

Lemma connect_cached m s : socket m = Some s → connect m = (s, m).
Proof. intros E. unfold connect. by rewrite E. Qed.

Lemma connect_caches m : socket (snd (connect m)) = Some (fst (connect m)).
Proof. unfold connect. destruct (socket m) eqn:E; simpl; done. Qed.

Lemma connect_many_cached n : ∀ m s,
  socket m = Some s → connect_many n m = (replicate n s, m).
Proof.
  induction n as [| n IH]; intros m s E; simpl; [done |].
  rewrite (connect_cached m s E), (IH m s E). done.
Qed.

Lemma disconnect_socket m : socket (disconnect m) = None.
Proof. unfold disconnect. destruct (socket m) eqn:E; simpl; done. Qed.

Lemma disconnect_io_created m : io_created (disconnect m) = io_created m.
Proof. unfold disconnect. destruct (socket m); done. Qed.

Lemma connect_fresh m :
  socket m = None →
  ref (fst (connect m)) = io_created m ∧
  io_created (snd (connect m)) = S (io_created m).
Proof. intros E. unfold connect. rewrite E. done. Qed.

(** C3.  However the manager stands, [connect()] returns the handle that is
    cached when it returns: the one that was cached already, with the
    manager untouched, or, when none was cached, one newly created by one
    call of [io].  Then [n] more calls of [connect()] with no [disconnect()]
    in between all return that same handle, leave it cached and create
    nothing: [io] has been called as often as after the first call. *)
Theorem connect_idempotent (n : nat) (m : SocketManager.t) :
  let h := fst (connect m) in
  let m1 := snd (connect m) in
  getSocket m1 = Some h ∧
  (∀ s, getSocket m = Some s → h = s ∧ m1 = m) ∧
  (getSocket m = None →
   ref h = io_created m ∧ io_created m1 = S (io_created m)) ∧
  connect_many (S n) m = (replicate (S n) h, m1) ∧
  connect m1 = (h, m1) ∧
  getSocket (snd (connect_many (S n) m)) = Some h ∧
  io_created (snd (connect_many (S n) m)) = io_created m1.
Proof.
  cbn zeta.
  assert (connect_many (S n) m
          = (replicate (S n) (fst (connect m)), snd (connect m))) as E.
  { simpl. destruct (connect m) as [s m1] eqn:Ec. simpl.
    assert (socket m1 = Some s) as Hs.
    { pose proof (connect_caches m) as H. by rewrite Ec in H. }
    by rewrite (connect_many_cached n m1 s Hs). }
  split; [apply connect_caches |].
  split.
  { intros s Hs. by rewrite (connect_cached m s Hs). }
  split; [apply connect_fresh |].
  split; [exact E |].
  split; [apply connect_cached, connect_caches |].
  rewrite E. simpl. split; [apply connect_caches | done].
Qed.

(** C3 at work: three calls on a new manager, and three more. *)
Lemma connect_idempotent_witness :
  let h := io "http://localhost:3001/game" 0 in
  let m3 := snd (connect_many 3 (new None)) in
  connect_many 3 (new None) = ([h; h; h], m3) ∧
  getSocket m3 = Some h ∧
  io_created m3 = 1 ∧
  connect_many 3 m3 = ([h; h; h], m3).
Proof.
  intros h m3.
  destruct (connect_idempotent 2 (new None)) as (_ & _ & _ & Hthree & _ & Hget & _).
  destruct (connect_idempotent 2 m3) as (_ & Hsame & _ & Hagain & _).
  destruct (Hsame h Hget) as [Hh Hm].
  split; [exact Hthree |]. split; [exact Hget |]. split; [reflexivity |].
  rewrite Hagain, Hh, Hm. reflexivity.
Defined.

(** C4.  A manager that was never connected holds no handle.  After any
    history of calls, [disconnect()] leaves [getSocket()] absent; and if a
    handle was held, it has been torn down, and the next [connect()] caches
    and returns a handle newly created by [io], different from the one torn
    down and from every handle torn down before. *)
Theorem disconnect_clears_handle (env_url : option string) (cs : list call) :
  let m := run cs (new env_url) in
  let m' := disconnect m in
  getSocket (new env_url) = None ∧
  getSocket m' = None ∧
  ∀ s, getSocket m = Some s →
    ref s ∈ closed m' ∧
    fst (connect m') ≠ s ∧
    (ref (fst (connect m')) ∉ closed m') ∧
    getSocket (snd (connect m')) = Some (fst (connect m')) ∧
    io_created (snd (connect m')) = S (io_created m).
Proof.
  intros m m'. split; [done |]. split; [apply disconnect_socket |].
  subst m'.
  intros s Hs.
  set (m' := disconnect m) in *.
  assert (wf m') as [_ Hc].
  { apply (wf_exec Disconnect), wf_run, wf_new. }
  destruct (connect_fresh m' (disconnect_socket m)) as [Hr Hn].
  unfold m' in Hr at 2. unfold m' in Hn at 2.
  rewrite disconnect_io_created in Hr, Hn.
  assert (ref s ∈ closed m') as Hin.
  { unfold m', disconnect. unfold getSocket in Hs. rewrite Hs. simpl.
    apply elem_of_app. right. by apply list_elem_of_singleton. }
  split; [exact Hin |].
  assert (ref (fst (connect m')) ∉ closed m') as Hfresh.
  { intros Hbad. apply Hc in Hbad. unfold m' in Hbad at 2.
    rewrite disconnect_io_created in Hbad. lia. }
  split; [| split; [exact Hfresh | split; [apply connect_caches | exact Hn]]].
  intros Heq. apply Hfresh. by rewrite Heq.
Qed.

(** C4 at work: connect, disconnect, connect again. *)
Lemma disconnect_clears_handle_witness :
  let m := run [Connect] (new None) in
  let first := io "http://localhost:3001/game" 0 in
  getSocket m = Some first ∧
  getSocket (disconnect m) = None ∧
  fst (connect (disconnect m)) ≠ first ∧
  io_created (snd (connect (disconnect m))) = 2.
Proof.
  intros m first. split; [reflexivity |].
  destruct (disconnect_clears_handle None [Connect]) as (_ & Hnone & Hnext).
  split; [exact Hnone |].
  destruct (Hnext first eq_refl) as (_ & Hne & _ & _ & Hcount).
  split; [exact Hne | exact Hcount].
Defined.

End SocketManagerFacts.

(** ** The game screen *)

Section GameScreenFacts.
Import Truco GameScreen.

Context (roomId playerName : string).

Local Abbreviation step := (GameScreen.step roomId playerName).
Local Abbreviation run := (GameScreen.run roomId playerName).
Local Abbreviation new_effects := (GameScreen.new_effects roomId playerName).

Ltac handlers :=
  unfold GameScreen.step, handle, acknowledge, mount, on_connect,
    on_disconnect, on_room_update, on_game_update, on_game_hand,
    on_game_message, on_game_ended, on_error, reconnect_timer,
    attemptReconnect, ack_join_connect, ack_join_reconnect, ack_action,
    handleStartGame, handlePlayCard, handleCallTruco, handleCallEnvido,
    handleCallFlor, handleSkipPhase, handleAcceptCall, handleRejectCall,
    submit, add_effect in *.

Lemma run_cons e es s : run (e :: es) s = run es (step e s).
Proof. reflexivity. Qed.

Lemma run_app es1 es2 s : run (es1 ++ es2) s = run es2 (run es1 s).
Proof. unfold GameScreen.run. apply foldl_app. Qed.

Lemma isMyTurn_spec s :
  isMyTurn s = true ↔
  gameState s !! "turnPlayerId" = Some (VStr (currentPlayerId s)).
Proof.
  unfold isMyTurn, strict_eq_string.
  destruct (gameState s !! "turnPlayerId") as [[t| | |]|]; try (split; congruence).
  destruct (String.eqb_spec t (currentPlayerId s)); split; congruence.
Qed.

Lemma has_socket_spec s :
  has_socket s = true ↔ is_Some (SocketManager.getSocket (manager s)).
Proof. unfold has_socket. apply bool_decide_eq_true. Qed.

(** Effects are only ever appended. *)
Lemma step_appends e s : ∃ l, effects (step e s) = effects s ++ l.
Proof.
  destruct e as [sid| |reason|r now|g|h|msg|w sc now|msg now| |[| |fb] r|a];
    try destruct a; handlers; repeat case_match; simpl;
    rewrite <- ?(assoc_L (++));
    solve [ by exists [] ; rewrite app_nil_r | by eexists ].
Qed.

Lemma step_effects e s : effects (step e s) = effects s ++ new_effects e s.
Proof.
  unfold GameScreen.new_effects. destruct (step_appends e s) as [l ->].
  by rewrite drop_app_length.
Qed.

(** *** The reconnect schedule *)

Lemma timeouts_app l1 l2 : timeouts (l1 ++ l2) = timeouts l1 ++ timeouts l2.
Proof. apply omap_app. Qed.

Lemma shown_app l1 l2 : shown (l1 ++ l2) = shown l1 ++ shown l2.
Proof. apply omap_app. Qed.

Lemma fatal_notices_app l1 l2 :
  fatal_notices (l1 ++ l2) = fatal_notices l1 + fatal_notices l2.
Proof. unfold fatal_notices. by rewrite shown_app, filter_app, length_app. Qed.

Lemma fatal_notices_toast t :
  fatal_notices [ShowToast t] = if decide (t = reconnect_failed) then 1 else 0.
Proof.
  unfold fatal_notices. simpl. rewrite filter_cons, filter_nil.
  by destruct (decide (t = reconnect_failed)).
Qed.

(** [attemptReconnect] either gives up with the terminal notice, or counts
    one more attempt and schedules it. *)
Lemma attemptReconnect_cases s :
  let a := reconnectAttempts s in
  let s' := attemptReconnect s in
  if maxReconnectAttempts <=? a then
    s' = add_effect (ShowToast reconnect_failed) s
  else
    reconnectAttempts s' = S a ∧
    reconnecting s' = true ∧
    effects s' = effects s ++ [SetTimeout (delay (S a))].
Proof.
  intros a s'. subst a s'. unfold attemptReconnect.
  destruct (maxReconnectAttempts <=? reconnectAttempts s); done.
Qed.

(** What one event does to the attempt counter, the timers and the terminal
    notice, unless it is one of the two that reset the counter. *)
Lemma step_reconnect e s :
  resets e = false →
  let a := reconnectAttempts s in
  let s' := step e s in
  if forced e then
    if maxReconnectAttempts <=? a then
      reconnectAttempts s' = a ∧
      timeouts (effects s') = timeouts (effects s) ∧
      fatal_notices (effects s') = S (fatal_notices (effects s))
    else
      reconnectAttempts s' = S a ∧
      timeouts (effects s') = timeouts (effects s) ++ [delay (S a)] ∧
      fatal_notices (effects s') = fatal_notices (effects s)
  else
    reconnectAttempts s' = a ∧
    timeouts (effects s') = timeouts (effects s) ∧
    fatal_notices (effects s') = fatal_notices (effects s).
Proof.
  intros Hq a s'. subst a s'.
  destruct e as [sid| |reason|r now|g|h|msg|w sc now|msg now| |[| |fb] r|a].
  3:{ (* the disconnect handler *)
    cbn [forced GameScreen.step]. unfold on_disconnect.
    destruct (String.eqb reason "io server disconnect"); [| done].
    pose proof (attemptReconnect_cases (set_connected false s)) as H.
    cbn zeta in H. change (reconnectAttempts (set_connected false s))
      with (reconnectAttempts s) in H.
    change (effects (set_connected false s)) with (effects s) in H.
    destruct (maxReconnectAttempts <=? reconnectAttempts s).
    - rewrite H. unfold add_effect. simpl.
      rewrite timeouts_app, fatal_notices_app, fatal_notices_toast. simpl.
      rewrite app_nil_r. repeat split. lia.
    - destruct H as (-> & _ & ->).
      rewrite timeouts_app, fatal_notices_app. simpl.
      repeat split. unfold fatal_notices. simpl. lia. }
  all: try destruct a; simpl in Hq |- *; handlers;
    repeat case_match; simpl in *; try discriminate;
    rewrite ?timeouts_app, ?fatal_notices_app, ?fatal_notices_toast;
    simpl; rewrite ?app_nil_r, ?Nat.add_0_r;
    repeat split; try done; try lia.
Qed.

(** *** Server pushes *)

(** C5.  After a [game:update] push, a key of the local game state that the
    pushed partial update does not carry keeps the value (or the absence) it
    had; a key the update carries takes the pushed value. *)
Theorem game_update_merges (s : state) (upd : gmap string Value) (k : string) :
  let s' := step (GameUpdate upd) s in
  (upd !! k = None → gameState s' !! k = gameState s !! k) ∧
  (∀ v, upd !! k = Some v → gameState s' !! k = Some v).
Proof.
  cbn zeta. simpl. split.
  - intros Hk. by apply lookup_union_r.
  - intros v Hk. by apply lookup_union_Some_l.
Qed.

(** C6.  After a [game:hand] push the local hand is the pushed list, whatever
    the hand was and whatever happened before; the push touches nothing else. *)
Theorem hand_push_replaces (es : list event) (s : state) (hand : list Card) :
  playerHand (run (es ++ [GameHand hand]) s) = hand ∧
  run (es ++ [GameHand hand]) s = set_playerHand hand (run es s).
Proof. rewrite run_app. split; reflexivity. Qed.

(** *** The in-flight flag *)

Lemma flag_ok_init m : flag_ok (init m).
Proof. intros f. discriminate. Qed.

Lemma step_flag_ok e s : flag_ok s → flag_ok (step e s).
Proof.
  unfold flag_ok. intros Hs f.
  destruct e as [sid| |reason|r now|g|h|msg|w sc now|msg now| |[| |fb] r|a];
    try destruct a as [|card| |[| |]| | | |]; handlers;
    repeat case_match; simpl; try apply Hs; try discriminate;
    by intros [= <-].
Qed.

Lemma run_flag_ok es : ∀ s, flag_ok s → flag_ok (run es s).
Proof.
  induction es as [| e es IH]; intros s Hs; [done |].
  rewrite run_cons. by apply IH, step_flag_ok.
Qed.

(** A click while an action is in flight changes nothing. *)
Lemma click_in_flight a s : in_flight s = true → step (Clicked a) s = s.
Proof.
  intros H. destruct a; simpl; handlers; rewrite H;
    by rewrite ?andb_false_r.
Qed.

(** C7.  On a game screen that has run from its initial state through any
    events, if the action-in-progress flag is set then every action handler
    returns the state as it is (nothing emitted, nothing changed); and the
    acknowledgement of an action, whatever it carries, a game-state push and
    a game-ended push each clear the flag. *)
Theorem in_flight_blocks_actions (m : SocketManager.t) (es : list event)
    (flag : string) :
  actionInProgress (run es (init m)) = Some flag →
  let s := run es (init m) in
  (∀ a, step (Clicked a) s = s) ∧
  (∀ fallback r, actionInProgress (step (Acked (action_done fallback) r) s) = None) ∧
  (∀ g, actionInProgress (step (GameUpdate g) s) = None) ∧
  (∀ w sc now, actionInProgress (step (GameEnded w sc now) s) = None).
Proof.
  intros Hflag s. split; [| split; [| split]].
  - intros a. apply click_in_flight. unfold in_flight, s. rewrite Hflag. simpl.
    by apply (run_flag_ok es (init m) (flag_ok_init m)).
  - intros fb r. simpl. unfold ack_action. by destruct (success r).
  - done.
  - intros w sc now. simpl. unfold on_game_ended. by repeat case_match.
Qed.

(** *** Playing a card *)

Lemma play_guard s :
  has_socket s && negb (in_flight s) && isMyTurn s = true ↔ may_play s.
Proof.
  unfold may_play. rewrite !andb_true_iff, negb_true_iff.
  rewrite has_socket_spec, isMyTurn_spec. unfold in_flight. tauto.
Qed.

(** C9.  Whatever happens to the screen, a [play:card] request is among the
    effects of an event only if the event is a click on a card while a socket
    is cached, no action is in flight and the turn owner of the game state is
    the local player; under that guard the click emits exactly that request
    for this room, and otherwise it changes nothing. *)
Theorem play_card_only_on_turn (s : state) :
  (∀ e room card cb,
     Emit (play_card room card) cb ∈ new_effects e s →
     e = Clicked (PlayCard card) ∧ room = roomId ∧ may_play s) ∧
  (∀ card, may_play s →
     step (Clicked (PlayCard card)) s
     = submit "playing-card" (play_card roomId card)
         "No se pudo jugar la carta" s) ∧
  (∀ card, ¬ may_play s → step (Clicked (PlayCard card)) s = s).
Proof.
  split; [| split].
  - intros e room card cb Hin. unfold GameScreen.new_effects in Hin.
    destruct e as [sid| |reason|r now|g|h|msg|w sc now|msg now| |[| |fb] r|a];
      try destruct a as [|c| |ty| | | |]; handlers;
      repeat case_match; simpl in Hin;
      rewrite <- ?(assoc_L (++)) in Hin;
      rewrite ?drop_app_length, ?drop_all in Hin;
      repeat (apply elem_of_cons in Hin as [Hin | Hin]; [try discriminate Hin |]);
      try (by apply elem_of_nil in Hin).
    injection Hin as -> -> _.
    split; [done | split; [done | by apply play_guard]].
  - intros card Hg%play_guard. simpl. unfold handlePlayCard. by rewrite Hg.
  - intros card Hg. simpl. unfold handlePlayCard.
    destruct (has_socket s && negb (in_flight s) && isMyTurn s) eqn:E; [| done].
    by apply play_guard in E.
Qed.

(** *** Failed acknowledgements *)

(** Every action handler sends the same kind of callback along, with a
    fallback text that is not empty. *)
Lemma action_callback a s r cb :
  Emit r cb ∈ new_effects (Clicked a) s →
  ∃ fallback, cb = action_done fallback ∧ Js.truthy fallback = true.
Proof.
  unfold GameScreen.new_effects. intros Hin.
  destruct a; simpl in Hin; handlers; repeat case_match; simpl in Hin;
    rewrite ?drop_app_length, ?drop_all in Hin;
    repeat (apply elem_of_cons in Hin as [Hin | Hin]; [try discriminate Hin |]);
    try (by apply elem_of_nil in Hin);
    injection Hin as _ ->; eexists; split; reflexivity.
Qed.

(** A failed action clears the flag and shows the server's message, or the
    handler's fallback when there is none. *)
Lemma action_failure fallback r s :
  success r = false →
  step (Acked (action_done fallback) r) s
  = set_actionInProgress None
      (add_effect (ShowToast (error_toast (Js.or_else (error r) fallback))) s).
Proof. intros H. simpl. unfold ack_action. by rewrite H. Qed.

End GameScreenFacts.

(** ** The lobby screen *)

Section LobbyFacts.
Import Truco Lobby.

Context (playerName : string) (gameConfig : GameConfig).
Context (trim toUpperCase : string → string).

Lemma lobby_has_socket_spec s :
  has_socket s = true ↔ is_Some (SocketManager.getSocket (manager s)).
Proof. unfold has_socket. apply bool_decide_eq_true. Qed.

Lemma compatible_spec room :
  compatible gameConfig room = true ↔
  maxPoints (config room) = maxPoints gameConfig ∧
  withFlor (config room) = withFlor gameConfig.
Proof.
  unfold compatible. rewrite andb_true_iff, Z.eqb_eq, Bool.eqb_true_iff. done.
Qed.

(** C10.  A room is in the compatible list exactly when it is in the fetched
    list and its configuration equals the player's in both max points and
    flor; and the join button of a listed room with 2 or more players is
    disabled. *)
Theorem compatible_rooms_exact (s : state) :
  (∀ room,
     room ∈ compatibleRooms gameConfig s ↔
     room ∈ waitingRooms s ∧
     maxPoints (config room) = maxPoints gameConfig ∧
     withFlor (config room) = withFlor gameConfig) ∧
  (∀ room,
     room ∈ compatibleRooms gameConfig s →
     (2 ≤ playerCount room)%Z →
     roomEntry trim s room ∈ roomEntries gameConfig trim s ∧
     disabled (join (roomEntry trim s room)) = true).
Proof.
  split.
  - intros room. unfold compatibleRooms.
    rewrite !list_elem_of_In, filter_In, compatible_spec. done.
  - intros room Hin Hfull. split.
    + unfold roomEntries. by apply list_elem_of_fmap_2.
    + simpl. apply Z.leb_le in Hfull. rewrite Hfull. apply orb_true_r.
Qed.

(** C8.  With configuration [{maxPoints: 15, withFlor: true}] and a cached
    socket, [handleCreateRoom] emits [room:create] with the player's name and
    that configuration; once the acknowledgement
    [{success: true, roomId: "R1", code: "ABC123"}] has run, the create card
    shows the access code "ABC123" and an enabled button whose click calls
    [onJoinRoom("R1")]. *)
Theorem create_room_scenario (s : state) (r : Response) :
  let cfg := {| maxPoints := 15; withFlor := true |} in
  let cb := room_created (connected s) in
  let s1 := handleCreateRoom playerName cfg s in
  let s2 := acknowledge cb r s1 in
  is_Some (SocketManager.getSocket (manager s)) →
  success r = true →
  roomId r = Some "R1" →
  resp_code r = Some "ABC123" →
  effects s1 = effects s ++ [Emit (room_create playerName cfg) cb] ∧
  createdRoomId s2 = Some "R1" ∧
  ∃ enter,
    createCard playerName cfg s2
    = Created (Some "ABC123") (getConfigBadge cfg) enter ∧
    disabled enter = false ∧
    effects (onClick enter s2) = effects s2 ++ [JoinRoom (Some "R1")].
Proof.
  intros cfg cb s1 s2 Hsock%lobby_has_socket_spec Hok Hid Hcode.
  subst s2 s1 cb. unfold handleCreateRoom. rewrite Hsock.
  split; [done |].
  simpl. unfold ack_create_room. rewrite Hok, Hid, Hcode. simpl.
  unfold fetchWaitingRooms.
  destruct (has_socket _ && connected s); (split; [done |]);
    eexists; (split; [reflexivity |]); split; reflexivity.
Qed.

(** What a failed acknowledgement does on the lobby screen: it clears the
    loading flag of its action, if it has one, and writes to the console. *)
Lemma lobby_failure (cb : Callback) (r : Response) (s : state) :
  success r = false →
  acknowledge cb r s =
  match cb with
  | rooms_listed => s
  | room_created _ =>
      add_effect (ConsoleError "Failed to create room:" (error r))
        (set_loading false s)
  | quick_matched =>
      add_effect (ConsoleError "Failed to find quick match:" (error r))
        (set_quickMatchLoading false s)
  | joined_by_code =>
      add_effect (ConsoleError "Failed to join room by code:" (error r)) s
  end.
Proof.
  intros H. destruct cb; simpl;
    unfold ack_rooms_list, ack_create_room, ack_quick_match, ack_join_code;
    by rewrite H.
Qed.

End LobbyFacts.

(** ** Both screens: what a failed acknowledgement shows *)

(** C2, as the code has it.  On the game screen every action handler passes
    a callback which, on an acknowledgement with [success = false], clears
    the action-in-progress flag and shows one destructive toast whose text is
    the server's error message when that is a non-empty string and the
    handler's own fallback text otherwise.  On the lobby screen a failed
    acknowledgement shows nothing: it clears the loading flag of its action
    (create room, quick match) and writes the error to the console. *)
Theorem action_failures_surfaced :
  (∀ roomId playerName a s req cb (r : GameScreen.Response) s',
     GameScreen.Emit req cb
       ∈ GameScreen.new_effects roomId playerName (GameScreen.Clicked a) s →
     GameScreen.success r = false →
     ∃ fallback,
       cb = GameScreen.action_done fallback ∧
       Js.truthy fallback = true ∧
       let s'' := GameScreen.step roomId playerName (GameScreen.Acked cb r) s' in
       GameScreen.actionInProgress s'' = None ∧
       GameScreen.effects s''
       = GameScreen.effects s' ++
           [GameScreen.ShowToast
              (GameScreen.error_toast
                 (Js.or_else (GameScreen.error r) fallback))]) ∧
  (∀ cb (r : Lobby.Response) s,
     Lobby.success r = false →
     Lobby.acknowledge cb r s =
     match cb with
     | Lobby.rooms_listed => s
     | Lobby.room_created _ =>
         Lobby.add_effect
           (Lobby.ConsoleError "Failed to create room:" (Lobby.error r))
           (Lobby.set_loading false s)
     | Lobby.quick_matched =>
         Lobby.add_effect
           (Lobby.ConsoleError "Failed to find quick match:" (Lobby.error r))
           (Lobby.set_quickMatchLoading false s)
     | Lobby.joined_by_code =>
         Lobby.add_effect
           (Lobby.ConsoleError "Failed to join room by code:" (Lobby.error r))
           s
     end).
Proof.
  split.
  - intros roomId playerName a s req cb r s' Hin Hfail.
    destruct (action_callback roomId playerName a s req cb Hin)
      as (fallback & -> & Hfb).
    exists fallback. split; [done |]. split; [done |]. cbn zeta.
    by rewrite (action_failure roomId playerName fallback r s' Hfail).
  - intros cb r s Hfail. by apply lobby_failure.
Qed.

(** ** The theorems at work on concrete runs *)

(** C2 at work on the game screen: a refused [game:start]. *)
Lemma action_failures_surfaced_witness :
  let s1 := GameScreen.step "R1" "Ana" (GameScreen.Clicked GameScreen.StartGame)
              Examples.game0 in
  let cb := GameScreen.action_done "No se pudo iniciar la partida" in
  let s2 := GameScreen.step "R1" "Ana" (GameScreen.Acked cb Examples.refused) s1 in
  GameScreen.actionInProgress s1 = Some "starting" ∧
  GameScreen.actionInProgress s2 = None ∧
  GameScreen.shown (GameScreen.effects s2)
  = [GameScreen.error_toast "Sala incompleta"].
Proof.
  intros s1 cb s2.
  destruct action_failures_surfaced as [Hgame _].
  destruct (Hgame "R1" "Ana" GameScreen.StartGame Examples.game0
              (GameScreen.game_start "R1") cb Examples.refused s1)
    as (fallback & Hcb & _ & Hflag & Heff).
  - vm_compute. apply list_elem_of_here.
  - reflexivity.
  - injection Hcb as <-. split; [reflexivity |]. split; [exact Hflag |].
    fold s2 in Heff. rewrite Heff. reflexivity.
Defined.

(** C2 as stated fails on the lobby screen: after a refused [room:create]
    the only effects are the request and a line on the console, and the
    hooks hold what they held before the click; no notice carries the
    server's message "Sala llena". *)
Lemma lobby_failure_shows_nothing :
  let s1 := Lobby.handleCreateRoom "Ana" Examples.config15 Examples.lobby0 in
  let s2 := Lobby.acknowledge (Lobby.room_created true) Examples.lobby_refused s1 in
  Lobby.effects s2
  = [Lobby.Emit (Lobby.room_create "Ana" Examples.config15)
       (Lobby.room_created true);
     Lobby.ConsoleError "Failed to create room:" (Some "Sala llena")] ∧
  Lobby.set_effects [] s2 = Examples.lobby0.
Proof. split; reflexivity. Qed.

(** C5 at work: a push of the turn owner alone keeps the phase. *)
Lemma game_update_merges_witness :
  let s :=
    GameScreen.set_gameState
      {[ "phase" := Truco.VStr "envido"; "turnPlayerId" := Truco.VStr "p1" ]}
      Examples.game0 in
  let upd : gmap string Truco.Value := {[ "turnPlayerId" := Truco.VStr "p2" ]} in
  let s' := GameScreen.step "R1" "Ana" (GameScreen.GameUpdate upd) s in
  GameScreen.gameState s' !! "phase" = Some (Truco.VStr "envido") ∧
  GameScreen.gameState s' !! "turnPlayerId" = Some (Truco.VStr "p2").
Proof.
  intros s upd s'. split.
  - destruct (game_update_merges "R1" "Ana" s upd "phase") as [Hkeep _].
    fold s' in Hkeep. rewrite Hkeep; reflexivity.
  - destruct (game_update_merges "R1" "Ana" s upd "turnPlayerId") as [_ Htake].
    apply Htake. reflexivity.
Defined.

(** C7 at work: a second click while [game:start] is outstanding. *)
Lemma in_flight_blocks_actions_witness :
  let s :=
    GameScreen.run "R1" "Ana"
      [GameScreen.Mount None; GameScreen.SocketConnect;
       GameScreen.Clicked GameScreen.StartGame]
      (GameScreen.init Examples.manager0) in
  GameScreen.actionInProgress s = Some "starting" ∧
  GameScreen.step "R1" "Ana" (GameScreen.Clicked GameScreen.CallTruco) s = s ∧
  GameScreen.actionInProgress
    (GameScreen.step "R1" "Ana" (GameScreen.GameUpdate ∅) s) = None.
Proof.
  intros s. split; [reflexivity |].
  destruct (in_flight_blocks_actions "R1" "Ana" Examples.manager0
              [GameScreen.Mount None; GameScreen.SocketConnect;
               GameScreen.Clicked GameScreen.StartGame]
              "starting" eq_refl) as (Hclick & _ & Hupdate & _).
  split; [apply Hclick | apply Hupdate].
Defined.

(** C8 at work on the connected lobby. *)
Lemma create_room_scenario_witness :
  let s1 := Lobby.handleCreateRoom "Ana" Examples.config15 Examples.lobby0 in
  let s2 := Lobby.acknowledge (Lobby.room_created true) Examples.lobby_created s1 in
  Lobby.createdRoomId s2 = Some "R1" ∧
  Lobby.shownCode s2 = Some "ABC123" ∧
  Lobby.joins (Lobby.effects (Lobby.handleJoinCreatedRoom s2)) = [Some "R1"].
Proof.
  intros s1 s2.
  destruct (create_room_scenario "Ana" Examples.lobby0 Examples.lobby_created)
    as (_ & Hid & _).
  - eexists. reflexivity.
  - reflexivity.
  - reflexivity.
  - reflexivity.
  - split; [exact Hid |]. split; reflexivity.
Defined.

(** C9 at work: the same click with the turn at the local player "p1" and
    at the opponent "p2". *)
Lemma play_card_only_on_turn_witness :
  let mine :=
    GameScreen.run "R1" "Ana"
      [GameScreen.Mount (Some "p1"); GameScreen.SocketConnect;
       GameScreen.GameUpdate {[ "turnPlayerId" := Truco.VStr "p1" ]}]
      (GameScreen.init Examples.manager0) in
  let theirs :=
    GameScreen.step "R1" "Ana"
      (GameScreen.GameUpdate {[ "turnPlayerId" := Truco.VStr "p2" ]}) mine in
  let click := GameScreen.Clicked (GameScreen.PlayCard "7-espadas") in
  GameScreen.requests (GameScreen.new_effects "R1" "Ana" click mine)
  = [GameScreen.play_card "R1" "7-espadas"] ∧
  GameScreen.step "R1" "Ana" click theirs = theirs.
Proof.
  intros mine theirs click. split.
  - destruct (play_card_only_on_turn "R1" "Ana" mine) as (_ & Hplay & _).
    unfold GameScreen.new_effects, click. rewrite Hplay; [reflexivity |].
    split; [eexists; reflexivity | split; reflexivity].
  - destruct (play_card_only_on_turn "R1" "Ana" theirs) as (_ & _ & Hskip).
    apply Hskip. intros (_ & _ & Hturn). vm_compute in Hturn. discriminate Hturn.
Defined.

(** C10 at work: three fetched rooms, one of another configuration, one
    full. *)
Lemma compatible_rooms_exact_witness :
  let a := Examples.room "A" 1 Examples.config15 in
  let b := Examples.room "B" 2 Examples.config15 in
  let c := Examples.room "C" 1 {| Truco.maxPoints := 30; Truco.withFlor := false |} in
  let s := Lobby.on_rooms_list (Some [a; b; c]) Examples.lobby0 in
  Lobby.compatibleRooms Examples.config15 s = [a; b] ∧
  Lobby.disabled (Lobby.join (Lobby.roomEntry id s b)) = true ∧
  Lobby.disabled (Lobby.join (Lobby.roomEntry id s a)) = false.
Proof.
  intros a b c s. split; [reflexivity |]. split; [| reflexivity].
  destruct (compatible_rooms_exact Examples.config15 id s) as [Hin Hfull].
  apply Hfull; [| vm_compute; discriminate].
  apply Hin. split; [| split; reflexivity].
  apply list_elem_of_further, list_elem_of_here.
Defined.

(** * Further properties of the code *)

(** ** The connection manager: what every history of calls preserves *)

Section SocketManagerHistory.
Import SocketManager.

Lemma consistent_step c m : consistent m → consistent (exec c m).
Proof.
  unfold consistent, live. intros (Hnd & Hlt & Hcount & Hlive).
  destruct c; simpl; [| | done].
  - unfold connect. destruct (socket m) as [s|] eqn:E; simpl.
    { rewrite E. done. }
    split; [done |]. split; [| split].
    + intros r Hr. specialize (Hlt r Hr). lia.
    + lia.
    + intros s [= <-]. simpl. split; [| lia].
      intros Hr. specialize (Hlt _ Hr). lia.
  - unfold disconnect. destruct (socket m) as [s|] eqn:E; simpl.
    2:{ rewrite E. done. }
    destruct (Hlive s eq_refl) as [Hnew Hs].
    split; [| split; [| split]].
    + apply NoDup_app. split; [done |]. split; [| apply NoDup_singleton].
      intros r Hr ->%list_elem_of_singleton. done.
    + intros r [Hr | ->%list_elem_of_singleton]%elem_of_app; [by apply Hlt | done].
    + rewrite length_app. simpl. lia.
    + discriminate.
Qed.

Lemma consistent_run cs : ∀ m, consistent m → consistent (run cs m).
Proof.
  induction cs as [| c cs IH]; intros m Hm; [exact Hm |].
  apply (IH (exec c m)). by apply consistent_step.
Qed.

Lemma consistent_new env_url : consistent (new env_url).
Proof.
  unfold consistent, live. simpl. split; [apply NoDup_nil_2 |].
  split; [| done]. intros r Hr. by apply elem_of_nil in Hr.
Qed.

(** X1.  At most one handle is alive: after any history of calls on a new
    manager, the handles [io] has created are the ones torn down plus the
    cached one, if there is one; no handle is torn down twice; and the
    cached handle is never one that has been torn down. *)
Theorem manager_single_live_handle (env_url : option string) (cs : list call) :
  let m := run cs (new env_url) in
  io_created m = length (closed m) + live m ∧
  live m ≤ 1 ∧
  NoDup (closed m) ∧
  (∀ s, getSocket m = Some s → ref s ∉ closed m).
Proof.
  destruct (consistent_run cs (new env_url) (consistent_new env_url))
    as (Hnd & _ & Hcount & Hlive).
  split; [exact Hcount |].
  split; [unfold live; destruct (socket _); lia |].
  split; [exact Hnd |].
  intros s Hs. by apply Hlive.
Qed.

(** X2.  [disconnect()] on a manager that holds nothing changes nothing, so
    calling it twice is calling it once: the handle is torn down one time. *)
Theorem disconnect_idempotent (m : SocketManager.t) :
  disconnect (disconnect m) = disconnect m ∧
  (getSocket m = None → disconnect m = m) ∧
  length (closed (disconnect (disconnect m))) ≤ S (length (closed m)).
Proof.
  unfold disconnect, getSocket.
  destruct (socket m) as [s|] eqn:E; simpl; rewrite ?E; simpl.
  - split; [done |]. split; [done |]. rewrite length_app. simpl. lia.
  - split; [done |]. split; [done |]. lia.
Qed.

Lemma endpoint_step server c m : endpoint_of server m → endpoint_of server (exec c m).
Proof.
  unfold endpoint_of. intros [Hu Hs]. destruct c; simpl; [| | done].
  - unfold connect. destruct (socket m) as [s|] eqn:E; simpl.
    { rewrite E. done. }
    split; [done |]. intros s [= <-]. simpl. by rewrite Hu.
  - unfold disconnect. destruct (socket m) as [s|] eqn:E; simpl.
    + split; [done | discriminate].
    + rewrite E. done.
Qed.

Lemma endpoint_run server cs : ∀ m,
  endpoint_of server m → endpoint_of server (run cs m).
Proof.
  induction cs as [| c cs IH]; intros m Hm; [exact Hm |].
  apply (IH (exec c m)). by apply endpoint_step.
Qed.

(** X3.  Every handle the manager hands out, after any history, is one for
    the [/game] namespace of the configured server, with the websocket
    transport first and polling as the fallback; the server is the
    environment's URL, and [http://localhost:3001] when that is not set or
    empty. *)
Theorem manager_endpoint (env_url : option string) (cs : list call)
    (s : Socket) :
  getSocket (run cs (new env_url)) = Some s →
  url s = Js.or_else env_url "http://localhost:3001" +:+ "/game" ∧
  transports s = ["websocket"; "polling"] ∧
  (env_url = None ∨ env_url = Some "" → url s = "http://localhost:3001/game").
Proof.
  intros Hs.
  destruct (endpoint_run (Js.or_else env_url "http://localhost:3001") cs
              (new env_url)) as [_ Hall].
  { split; [done | discriminate]. }
  destruct (Hall s Hs) as [Hurl Htr].
  split; [exact Hurl |]. split; [exact Htr |].
  intros [-> | ->]; exact Hurl.
Qed.

(** X3 at work: no URL in the environment, connect, disconnect, connect. *)
Lemma manager_endpoint_witness :
  let m := run [Connect; Disconnect; Connect] (new None) in
  getSocket m = Some (io "http://localhost:3001/game" 1) ∧
  url (io "http://localhost:3001/game" 1) = "http://localhost:3001/game".
Proof.
  intros m. split; [reflexivity |].
  destruct (manager_endpoint None [Connect; Disconnect; Connect]
              (io "http://localhost:3001/game" 1) eq_refl) as (_ & _ & Hd).
  apply Hd. by left.
Defined.

End SocketManagerHistory.

(** ** The game screen: schedule, flag, requests and messages *)

Section GameScreenMore.
Import Truco GameScreen.

Context (roomId playerName : string).

Local Abbreviation step := (GameScreen.step roomId playerName).
Local Abbreviation run := (GameScreen.run roomId playerName).
Local Abbreviation new_effects := (GameScreen.new_effects roomId playerName).

Ltac open_handlers :=
  unfold GameScreen.step, handle, acknowledge, mount, on_connect,
    on_room_update, on_game_update, on_game_hand,
    on_game_message, on_game_ended, on_error, reconnect_timer,
    ack_join_connect, ack_join_reconnect, ack_action,
    handleStartGame, handlePlayCard, handleCallTruco, handleCallEnvido,
    handleCallFlor, handleSkipPhase, handleAcceptCall, handleRejectCall,
    submit, add_effect in *.

Ltac each_event e :=
  destruct e as [sid| |reason|r now|g|h|msg|w sc now|msg now| |[| |fb] r|a].

(** X4.  The delay computed for a counter value lies between 1 and 10
    seconds, never shrinks as the counter grows, doubles from one value to
    the next up to 8 seconds at the value 3, and is the cap of 10 seconds
    from the value 4 on. *)
Theorem delay_bounds (n m : nat) :
  (1000 ≤ delay n ≤ 10000)%Z ∧
  (n ≤ m → (delay n ≤ delay m)%Z) ∧
  (n < 3 → delay (S n) = (2 * delay n)%Z) ∧
  (4 ≤ n → delay n = 10000%Z).
Proof.
  unfold delay. split; [| split; [| split]].
  - assert (1 ≤ 2 ^ Z.of_nat n)%Z by (apply Z.pow_le_mono_r with (b := 0%Z); lia).
    lia.
  - intros Hnm.
    assert (2 ^ Z.of_nat n ≤ 2 ^ Z.of_nat m)%Z by (apply Z.pow_le_mono_r; lia).
    lia.
  - intros Hn. destruct n as [|[|[|n]]]; try lia; reflexivity.
  - intros Hn.
    assert (2 ^ 4 ≤ 2 ^ Z.of_nat n)%Z by (apply Z.pow_le_mono_r; lia).
    change (2 ^ 4)%Z with 16%Z in *. lia.
Qed.

Lemma delay_from_one n : 1 ≤ n → (2000 ≤ delay n ≤ 10000)%Z.
Proof.
  intros Hn. unfold delay.
  assert (2 ^ 1 ≤ 2 ^ Z.of_nat n)%Z by (apply Z.pow_le_mono_r; lia).
  change (2 ^ 1)%Z with 2%Z in *. lia.
Qed.

(** What any event does to the attempt counter and to the timers. *)
Lemma step_counter e s :
  let a := reconnectAttempts s in
  let s' := step e s in
  if forced e then
    if maxReconnectAttempts <=? a then
      reconnectAttempts s' = a ∧ timeouts (effects s') = timeouts (effects s)
    else
      reconnectAttempts s' = S a ∧
      timeouts (effects s') = timeouts (effects s) ++ [delay (S a)]
  else
    reconnectAttempts s' = (if resets e then 0 else a) ∧
    timeouts (effects s') = timeouts (effects s).
Proof.
  intros a s'. subst a s'.
  destruct (resets e) eqn:Hr.
  - each_event e; try discriminate Hr; simpl in Hr |- *; open_handlers;
      rewrite ?Hr; simpl; by rewrite timeouts_app, app_nil_r.
  - pose proof (step_reconnect roomId playerName e s Hr) as H. cbn zeta in H.
    destruct (forced e); [destruct (maxReconnectAttempts <=? _) |]; tauto.
Qed.

Lemma step_attempts_bounded e s :
  reconnectAttempts s ≤ 5 → reconnectAttempts (step e s) ≤ 5.
Proof.
  intros Ha. pose proof (step_counter e s) as H. cbn zeta in H.
  unfold maxReconnectAttempts in H.
  destruct (forced e).
  - destruct (Nat.leb_spec 5 (reconnectAttempts s)); destruct H as [-> _]; lia.
  - destruct H as [-> _]. destruct (resets e); lia.
Qed.

(** X5.  However long the screen runs and whatever happens to it, the attempt
    counter never exceeds 5, and every timer it has scheduled waits at least
    2 and at most 10 seconds. *)
Theorem attempts_bounded (m : SocketManager.t) (es : list event) :
  let s := run es (init m) in
  reconnectAttempts s ≤ 5 ∧
  Forall (λ d, (2000 ≤ d ≤ 10000)%Z) (timeouts (effects s)).
Proof.
  cbn zeta.
  assert (∀ es s,
    reconnectAttempts s ≤ 5 ∧
    Forall (λ d, (2000 ≤ d ≤ 10000)%Z) (timeouts (effects s)) →
    reconnectAttempts (run es s) ≤ 5 ∧
    Forall (λ d, (2000 ≤ d ≤ 10000)%Z) (timeouts (effects (run es s)))) as Hrun.
  { clear es. induction es as [| e es IH]; intros s [Ha Ht]; [done |].
    rewrite run_cons. apply IH. split; [by apply step_attempts_bounded |].
    pose proof (step_counter e s) as H. cbn zeta in H.
    destruct (forced e); [destruct (maxReconnectAttempts <=? _) |];
      destruct H as [_ ->]; try done.
    apply Forall_app. split; [done |]. apply Forall_singleton.
    apply delay_from_one. lia. }
  apply Hrun. split; [simpl; lia | apply Forall_nil_2].
Qed.

(** X6.  A timer is set by nothing but a forced server disconnect that finds
    the counter below 5: the event then is that disconnect, the delay is the
    one of the counter's next value, and the screen says it is reconnecting. *)
Theorem timer_only_on_forced_disconnect (e : event) (s : state) (d : Z) :
  SetTimeout d ∈ new_effects e s →
  e = SocketDisconnect "io server disconnect" ∧
  reconnectAttempts s < 5 ∧
  d = delay (S (reconnectAttempts s)) ∧
  reconnecting (step e s) = true.
Proof.
  unfold GameScreen.new_effects. intros Hin.
  each_event e.
  3:{ cbn [GameScreen.step] in *. unfold on_disconnect in *.
      destruct (String.eqb_spec reason "io server disconnect") as [-> | _].
      2:{ simpl in Hin. rewrite drop_all in Hin. by apply elem_of_nil in Hin. }
      pose proof (attemptReconnect_cases (set_connected false s)) as H.
      cbn zeta in H.
      change (reconnectAttempts (set_connected false s))
        with (reconnectAttempts s) in H.
      change (effects (set_connected false s)) with (effects s) in H.
      unfold maxReconnectAttempts in H.
      destruct (Nat.leb_spec 5 (reconnectAttempts s)) as [Hle | Hlt].
      - rewrite H in Hin. unfold add_effect in Hin. simpl in Hin.
        rewrite drop_app_length in Hin.
        apply list_elem_of_singleton in Hin. discriminate Hin.
      - destruct H as (_ & Hrec & Heff). rewrite Heff in Hin.
        rewrite drop_app_length in Hin.
        apply list_elem_of_singleton in Hin. injection Hin as ->. done. }
  all: try destruct a; open_handlers; repeat case_match; simpl in Hin;
    rewrite <- ?(assoc_L (++)) in Hin;
    rewrite ?drop_app_length, ?drop_all in Hin;
    repeat (apply elem_of_cons in Hin as [Hin | Hin]; [try discriminate Hin |]);
    by apply elem_of_nil in Hin.
Qed.

(** X7.  Once the counter has been reset, by the socket connecting or by a
    successful rejoin, the schedule starts over: the next forced disconnect
    sets its timer to 2 seconds, whatever the counter was before. *)
Theorem reset_restarts_schedule (e : event) (s : state) :
  resets e = true →
  let s' := run [e; SocketDisconnect "io server disconnect"] s in
  reconnectAttempts s' = 1 ∧
  timeouts (effects s') = timeouts (effects s) ++ [2000%Z].
Proof.
  intros Hr s'. subst s'.
  change (run [e; SocketDisconnect "io server disconnect"] s)
    with (step (SocketDisconnect "io server disconnect") (step e s)).
  pose proof (step_counter e s) as H1. cbn zeta in H1.
  assert (forced e = false) as Hf by (by destruct e as [| | | | | | | | | |[| |]|]).
  rewrite Hf, Hr in H1. destruct H1 as [Ha Ht].
  pose proof (step_counter (SocketDisconnect "io server disconnect") (step e s))
    as H2.
  cbn zeta in H2. rewrite Ha in H2.
  change (forced (SocketDisconnect "io server disconnect")) with true in H2.
  change (maxReconnectAttempts <=? 0) with false in H2. cbv iota in H2.
  destruct H2 as [-> ->]. by rewrite Ht.
Qed.

(** X8.  Whatever has happened to the screen, the in-flight flag is either
    unset or one of the ten tags of the action handlers. *)
Theorem flag_is_a_known_tag (m : SocketManager.t) (es : list event)
    (flag : string) :
  actionInProgress (run es (init m)) = Some flag → flag ∈ action_flags.
Proof.
  assert (∀ es s,
    (∀ f, actionInProgress s = Some f → f ∈ action_flags) →
    ∀ f, actionInProgress (run es s) = Some f → f ∈ action_flags) as Hrun.
  { clear es flag. induction es as [| e es IH]; intros s Hs; [exact Hs |].
    rewrite run_cons. apply IH. clear IH. intros f.
    each_event e; try destruct a as [|card| |[| |]| | | |];
      open_handlers; unfold on_disconnect, attemptReconnect, add_effect;
      repeat case_match; simpl; try apply Hs; try discriminate;
      intros [= <-]; unfold action_flags;
      repeat (first [apply list_elem_of_here | apply list_elem_of_further]). }
  apply (Hrun es (init m)). discriminate.
Qed.

(** A click is refused and changes nothing, or is accepted: then no action
    was in flight, and the click sets a tag and emits one request for this
    room. *)
Lemma click_cases a s :
  step (Clicked a) s = s ∨
  in_flight s = false ∧
  ∃ flag req fallback,
    step (Clicked a) s = submit flag req fallback s ∧
    Js.truthy flag = true ∧ request_room req = roomId.
Proof.
  destruct a as [|card| |[| |]| | | |]; simpl; open_handlers;
    destruct (has_socket s); simpl; try (by left);
    destruct (in_flight s) eqn:E; simpl; try (by left);
    try (destruct (isMyTurn s); simpl; [| by left]);
    right; (split; [done |]); do 3 eexists; (split; [reflexivity |]); done.
Qed.

Lemma clicks_in_flight actions : ∀ s,
  in_flight s = true → run (Clicked <$> actions) s = s.
Proof.
  induction actions as [| a actions IH]; intros s H; [done |].
  rewrite fmap_cons, run_cons, (click_in_flight roomId playerName a s H).
  by apply IH.
Qed.

(** X9.  However many times and in whatever order the user clicks, with
    nothing arriving from the server in between, at most one request goes
    out: the clicks leave the state as it was, or as the first accepted click
    left it.  If an action was already in flight, none goes out. *)
Theorem clicks_send_at_most_one_request (actions : list UserAction) (s : state) :
  let s' := run (Clicked <$> actions) s in
  (s' = s ∨ ∃ a, a ∈ actions ∧ s' = step (Clicked a) s) ∧
  length (requests (effects s')) ≤ S (length (requests (effects s))) ∧
  (in_flight s = true → s' = s).
Proof.
  cbn zeta.
  assert (∀ actions s,
    run (Clicked <$> actions) s = s ∨
    ∃ a, a ∈ actions ∧ run (Clicked <$> actions) s = step (Clicked a) s ∧
         effects (step (Clicked a) s) ≠ effects s ∧
         ∃ x, effects (step (Clicked a) s) = effects s ++ [x]) as Hone.
  { clear. induction actions as [| a actions IH]; intros s; [by left |].
    rewrite fmap_cons, run_cons.
    destruct (click_cases a s) as [-> | (Hidle & flag & req & fb & Hs & Hflag & _)].
    - destruct (IH s) as [-> | (b & Hb & -> & Hne)]; [by left |].
      right. exists b. split; [by apply list_elem_of_further | done].
    - right. exists a. split; [apply list_elem_of_here |].
      rewrite clicks_in_flight.
      + split; [done |]. rewrite Hs. unfold submit, add_effect. simpl.
        split; [| by eexists].
        intros Hbad. apply (f_equal length) in Hbad.
        rewrite length_app in Hbad. simpl in Hbad. lia.
      + rewrite Hs. unfold submit, add_effect, in_flight. simpl. exact Hflag. }
  split; [| split].
  - destruct (Hone actions s) as [-> | (a & Ha & -> & _)]; [by left |].
    right. by exists a.
  - destruct (Hone actions s) as [-> | (a & _ & -> & _ & x & ->)]; [lia |].
    unfold requests. rewrite omap_app, length_app. simpl.
    destruct x; simpl; lia.
  - intros H. by apply clicks_in_flight.
Qed.

(** X10.  Every request the screen emits, whatever the event, names the room
    of its props; and a join request carries the player's name. *)
Theorem requests_target_own_room (e : event) (s : state) (req : Request)
    (cb : Callback) :
  Emit req cb ∈ new_effects e s →
  request_room req = roomId ∧
  (∀ room name, req = player_join room name → name = playerName).
Proof.
  unfold GameScreen.new_effects. intros Hin.
  each_event e; try destruct a as [|card| |ty| | | |];
    open_handlers; unfold on_disconnect, attemptReconnect, add_effect in *;
    repeat case_match; simpl in Hin;
    rewrite <- ?(assoc_L (++)) in Hin;
    rewrite ?drop_app_length, ?drop_all in Hin;
    repeat (apply elem_of_cons in Hin as [Hin | Hin]; [try discriminate Hin |]);
    try (by apply elem_of_nil in Hin);
    injection Hin as -> _; (split; [done |]); intros room name Heq;
    try discriminate Heq; by injection Heq as _ <-.
Qed.

Lemma find_existsb {A} (f : A → bool) (l : list A) :
  existsb f l = false → List.find f l = None.
Proof.
  induction l as [| x l IH]; simpl; [done |].
  destruct (f x); simpl; [discriminate | exact IH].
Qed.

(** X11.  A room push stores the room, and appends one message naming the
    first player of the snapshot who is not connected, or none when all are:
    the second test of the handler, on the player found, never fails. *)
Theorem room_update_message (updatedRoom : Room.t) (now : Z) (s : state) :
  let s' := step (RoomUpdate updatedRoom now) s in
  room s' = Some updatedRoom ∧
  messages s' =
    messages s ++
    match List.find (λ p, negb (Player.connected p)) (Room.players updatedRoom) with
    | Some p =>
        [{| type := "info";
            text := Player.name p +:+ " se desconectó";
            timestamp := now |}]
    | None => []
    end ∧
  (Forall (λ p, Player.connected p = true) (Room.players updatedRoom) →
   messages s' = messages s).
Proof.
  cbn zeta. simpl. unfold on_room_update.
  destruct (existsb _ (Room.players updatedRoom)) eqn:E.
  - destruct (List.find _ (Room.players updatedRoom)) as [p|] eqn:F; simpl.
    + split; [done |]. split; [done |]. intros Hall.
      apply find_some in F as [Hin Hoff].
      rewrite Forall_forall in Hall.
      apply list_elem_of_In, Hall in Hin. rewrite Hin in Hoff. discriminate.
    + split; [done |]. split; [by rewrite app_nil_r | done].
  - rewrite (find_existsb _ _ E). simpl.
    split; [done |]. split; [by rewrite app_nil_r | done].
Qed.

Lemma step_messages e s :
  ∃ l, messages (step e s) = messages s ++ l ∧ length l ≤ 1.
Proof.
  each_event e; try destruct a; open_handlers;
    unfold on_disconnect, attemptReconnect, add_effect;
    repeat case_match; simpl;
    first [ by (exists []; rewrite app_nil_r; split; [| simpl; lia])
          | by (eexists; split; [reflexivity | simpl; lia]) ].
Qed.

(** X12.  The message log only grows: over any run, the messages held
    before are still there, in order, at the front, and every event adds at
    most one. *)
Theorem messages_only_grow (es : list event) (s : state) :
  messages s `prefix_of` messages (run es s) ∧
  length (messages (run es s)) ≤ length (messages s) + length es.
Proof.
  revert s. induction es as [| e es IH]; intros s.
  { split; [done | simpl; lia]. }
  rewrite run_cons. destruct (IH (step e s)) as [Hp Hl].
  destruct (step_messages e s) as (l & Hm & Hone).
  rewrite Hm in Hp, Hl. rewrite length_app in Hl. split.
  - etrans; [| exact Hp]. by apply prefix_app_r.
  - simpl. lia.
Qed.

(** X13.  When the game ends and the winner is not a player of the room the
    screen holds, or it holds no room, nothing is announced: the push only
    clears the in-flight flag.  When the winner is such a player, one
    message and one toast name the first player with the winner's id. *)
Theorem game_ended_announces_known_winner (winnerId : string)
    (scores : gmap string Z) (now : Z) (s : state) :
  let players := match room s with Some r => Room.players r | None => [] end in
  let s' := step (GameEnded winnerId scores now) s in
  (Forall (λ p, Player.id p ≠ winnerId) players →
   s' = set_actionInProgress None s) ∧
  (∀ w, List.find (λ p, String.eqb (Player.id p) winnerId) players = Some w →
   length (messages s') = S (length (messages s)) ∧
   shown (effects s') =
     shown (effects s) ++
     [{| title := "Partida terminada";
         description := Player.name w +:+ " ganó la partida";
         variant := None |}] ∧
   actionInProgress s' = None).
Proof.
  cbn zeta. simpl. unfold on_game_ended. split.
  - intros Hall.
    destruct (room s) as [r|]; [| done].
    destruct (List.find _ (Room.players r)) as [w|] eqn:F; [| done].
    apply find_some in F as [Hin Heq].
    rewrite Forall_forall in Hall.
    apply list_elem_of_In, Hall in Hin.
    by apply String.eqb_eq in Heq.
  - intros w Hw. destruct (room s) as [r|]; [| discriminate].
    rewrite Hw. unfold add_effect. simpl.
    rewrite length_app, shown_app. simpl. split; [lia | done].
Qed.

(** X14.  The acknowledgement of the join replaces the game state by the
    one it carries, where a push merges: after a successful join carrying a
    game state and one push, the state held is the push over the carried
    state, and nothing of what was held before the join is left.  A join
    that carries none keeps what was held. *)
Theorem join_replaces_then_push_merges (r : Response)
    (upd : gmap string Value) (s : state) :
  success r = true →
  gameState (run [Acked join_on_connect r; GameUpdate upd] s)
  = upd ∪ default (gameState s) (resp_gameState r).
Proof.
  intros Hok.
  change (run [Acked join_on_connect r; GameUpdate upd] s)
    with (on_game_update upd (ack_join_connect r s)).
  unfold on_game_update, ack_join_connect. rewrite Hok. simpl.
  by destruct (resp_gameState r), (resp_hand r).
Qed.


Lemma filter_none {A} (P : A → Prop) `{∀ x, Decision (P x)} (l : list A) :
  Forall (λ x, ¬ P x) l → filter P l = [].
Proof.
  induction 1 as [| x l Hx _ IH]; [done |].
  by rewrite filter_cons_False.
Qed.

Lemma names_lookup (l : list Player.t) (k : string) :
  foldl
    (λ acc player,
       if String.eqb (Player.id player) "__proto__" then acc
       else <[Player.id player := Player.name player]> acc)
    (∅ : gmap string string) l !! k
  = if String.eqb k "__proto__" then None
    else Player.name <$> last (filter (λ p, Player.id p = k) l).
Proof.
  induction l as [| x l IH] using rev_ind.
  { simpl. by destruct (String.eqb k "__proto__"). }
  rewrite foldl_app, filter_app. simpl. rewrite filter_cons, filter_nil.
  destruct (String.eqb_spec (Player.id x) "__proto__") as [Hx | Hx].
  - rewrite IH. destruct (decide (Player.id x = k)) as [<- | Hne].
    + rewrite Hx. done.
    + by rewrite app_nil_r.
  - destruct (decide (Player.id x = k)) as [<- | Hne].
    + rewrite lookup_insert_eq, last_snoc.
      by destruct (String.eqb_spec (Player.id x) "__proto__").
    + rewrite lookup_insert_ne by done. by rewrite IH, app_nil_r.
Qed.

(** X16.  The object of names holds, under every id other than "__proto__",
    the name of the last player of the room with that id, and nothing under
    "__proto__".  A stored name is shown, "Jugador" in its place when it is
    empty.  For an id with no stored name, "Jugador" is shown unless the id
    names a member every object inherits ("constructor", "toString", ...):
    then that member is what the expression yields, and no text. *)
Theorem player_name_shown (s : state) (playerId : string) :
  let players := match room s with Some r => Room.players r | None => [] end in
  playerNames s !! playerId
  = (if String.eqb playerId "__proto__" then None
     else Player.name <$> last (filter (λ p, Player.id p = playerId) players)) ∧
  (∀ name, playerNames s !! playerId = Some name →
   displayName s playerId
   = name_text (if Js.truthy name then name else "Jugador")) ∧
  (Forall (λ p, Player.id p ≠ playerId) players →
   displayName s playerId
   = if bool_decide (playerId ∈ Object_prototype_keys)
     then inherited_member playerId
     else name_text "Jugador") ∧
  displayName s "__proto__" = inherited_member "__proto__".
Proof.
  cbn zeta.
  assert (∀ k, playerNames s !! k
          = if String.eqb k "__proto__" then None
            else Player.name <$>
                   last (filter (λ p, Player.id p = k)
                           match room s with
                           | Some r => Room.players r
                           | None => []
                           end))
    as Hlook.
  { intros k. unfold playerNames. destruct (room s) as [r|]; [apply names_lookup |].
    rewrite lookup_empty. by destruct (String.eqb k "__proto__"). }
  split; [apply Hlook |]. split; [| split].
  - intros name Hn. unfold displayName. by rewrite Hn.
  - intros Hall. unfold displayName. rewrite Hlook.
    rewrite (filter_none _ _ Hall). simpl.
    by destruct (String.eqb playerId "__proto__").
  - unfold displayName. rewrite Hlook. reflexivity.
Qed.

(** X17.  A rejoin that the server refuses is not surfaced and not retried:
    after a forced disconnect, its timer and the refusal, the screen still
    says it is reconnecting, no toast has been shown, and the only timer set
    is the one that has fired. *)
Theorem failed_rejoin_is_silent (r : Response) (s : state) :
  reconnectAttempts s < 5 →
  success r = false →
  let s' :=
    run [SocketDisconnect "io server disconnect"; TimerFired;
         Acked join_on_reconnect r] s in
  reconnecting s' = true ∧
  connected s' = false ∧
  shown (effects s') = shown (effects s) ∧
  timeouts (effects s')
  = timeouts (effects s) ++ [delay (S (reconnectAttempts s))] ∧
  requests (effects s')
  = requests (effects s) ++ [player_join roomId playerName].
Proof.
  intros Ha Hfail s'. subst s'.
  change (run _ s)
    with (ack_join_reconnect r
            (reconnect_timer roomId playerName
               (on_disconnect "io server disconnect" s))).
  unfold ack_join_reconnect. rewrite Hfail.
  unfold on_disconnect. simpl String.eqb. cbv iota.
  pose proof (attemptReconnect_cases (set_connected false s)) as H.
  cbn zeta in H.
  change (reconnectAttempts (set_connected false s))
    with (reconnectAttempts s) in H.
  change (effects (set_connected false s)) with (effects s) in H.
  unfold maxReconnectAttempts in H.
  destruct (Nat.leb_spec 5 (reconnectAttempts s)) as [Hle | _]; [lia |].
  destruct H as (_ & Hrec & Heff).
  unfold reconnect_timer.
  destruct (SocketManager.connect _) as [sock m'].
  unfold add_effect. simpl. rewrite Hrec, Heff.
  assert (connected (attemptReconnect (set_connected false s)) = false) as Hc.
  { unfold attemptReconnect. by destruct (_ <=? _). }
  rewrite Hc. unfold shown, timeouts, requests.
  rewrite !omap_app. simpl. rewrite !app_nil_r. done.
Qed.

(** X18.  The screen never lets go of the connection: no event tears a
    handle down, and once a handle is cached (the screen has mounted) every
    later event finds that same handle. *)
Theorem screen_keeps_socket (es : list event) (s : state) :
  SocketManager.closed (manager (run es s)) = SocketManager.closed (manager s) ∧
  (∀ sock, SocketManager.getSocket (manager s) = Some sock →
     SocketManager.getSocket (manager (run es s)) = Some sock) ∧
  (∀ sid, has_socket (run (Mount sid :: es) s) = true).
Proof.
  assert (∀ e s,
    SocketManager.closed (manager (step e s)) = SocketManager.closed (manager s) ∧
    (∀ sock, SocketManager.getSocket (manager s) = Some sock →
       SocketManager.getSocket (manager (step e s)) = Some sock)) as Hstep.
  { clear. intros e s.
    assert (∀ sock m', SocketManager.connect (manager s) = (sock, m') →
      SocketManager.closed m' = SocketManager.closed (manager s) ∧
      ∀ x, SocketManager.socket (manager s) = Some x →
        SocketManager.socket m' = Some x) as Hconn.
    { intros sock m'. unfold SocketManager.connect.
      destruct (SocketManager.socket (manager s)) eqn:E; intros [= <- <-];
        simpl; rewrite ?E; done. }
    unfold SocketManager.getSocket.
    each_event e; try destruct a; open_handlers;
      unfold on_disconnect, attemptReconnect, add_effect;
      repeat case_match; simpl; try done;
      exact (Hconn _ _ eq_refl). }
  assert (∀ es s,
    SocketManager.closed (manager (run es s)) = SocketManager.closed (manager s) ∧
    (∀ sock, SocketManager.getSocket (manager s) = Some sock →
       SocketManager.getSocket (manager (run es s)) = Some sock)) as Hrun.
  { clear es s. induction es as [| e es IH]; intros s; [done |].
    rewrite run_cons. destruct (IH (step e s)) as [Hc Hs].
    destruct (Hstep e s) as [Hc1 Hs1]. split; [congruence |].
    intros sock H. by apply Hs, Hs1. }
  destruct (Hrun es s) as [Hc Hs]. split; [exact Hc |]. split; [exact Hs |].
  intros sid. rewrite run_cons. apply has_socket_spec.
  destruct (Hrun es (step (Mount sid) s)) as [_ Hkeep].
  assert (is_Some (SocketManager.getSocket (manager (step (Mount sid) s))))
    as [sock Hsock].
  { simpl. unfold mount.
    pose proof (connect_caches (manager s)) as Hcache.
    destruct (SocketManager.connect (manager s)) as [sock m'].
    simpl in *. by eexists. }
  exists sock. by apply Hkeep.
Qed.
(** *** What a handle can deliver *)

(** Below five attempts no event shows the terminal notice. *)
Lemma step_no_notice e s :
  reconnectAttempts s < 5 →
  fatal_notices (effects (step e s)) = fatal_notices (effects s).
Proof.
  intros Ha. destruct (resets e) eqn:Hr.
  - each_event e; try discriminate Hr; simpl in Hr |- *; open_handlers;
      rewrite ?Hr; simpl; rewrite fatal_notices_app; simpl;
      rewrite ?fatal_notices_toast; simpl; unfold fatal_notices; simpl; lia.
  - pose proof (step_reconnect roomId playerName e s Hr) as H. cbn zeta in H.
    unfold maxReconnectAttempts in H.
    destruct (forced e); [| tauto].
    destruct (Nat.leb_spec 5 (reconnectAttempts s)); [lia | tauto].
Qed.

Lemma deliverable_run es : ∀ up s,
  deliverable up es = true →
  (up = true → reconnectAttempts s = 0) →
  reconnectAttempts s ≤ 1 →
  Forall (λ d, d = 2000%Z) (timeouts (effects s)) →
  fatal_notices (effects s) = 0 →
  reconnectAttempts (run es s) ≤ 1 ∧
  Forall (λ d, d = 2000%Z) (timeouts (effects (run es s))) ∧
  fatal_notices (effects (run es s)) = 0.
Proof.
  induction es as [| e es IH]; intros up s Hd Hup Ha Ht Hf; [done |].
  rewrite run_cons.
  pose proof (step_counter e s) as Hc. cbn zeta in Hc.
  pose proof (step_no_notice e s ltac:(lia)) as Hn.
  unfold maxReconnectAttempts in Hc.
  destruct e as [sid| |reason|r now|g|h|msg|w sc now|msg now| |cb r|a].
  3:{ (* a disconnect: the handle was connected *)
    simpl in Hd. apply andb_true_iff in Hd as [-> Hd].
    specialize (Hup eq_refl). rewrite Hup in Hc.
    change (5 <=? 0) with false in Hc.
    change (resets (SocketDisconnect reason)) with false in Hc.
    cbv iota in Hc.
    apply (IH false); [exact Hd | discriminate | | | congruence].
    - destruct (forced _); destruct Hc as [-> _]; lia.
    - destruct (forced _); destruct Hc as [_ ->]; [| done].
      apply Forall_app. split; [done |]. by apply Forall_singleton. }
  2:{ (* the connect event resets the counter *)
    simpl in Hd.
    change (forced SocketConnect) with false in Hc.
    change (resets SocketConnect) with true in Hc.
    cbv iota in Hc. destruct Hc as [Hc0 Hct].
    apply (IH true); [exact Hd | done | lia | by rewrite Hct | congruence]. }
  all: simpl in Hd; change (forced _) with false in Hc; cbv iota in Hc;
    destruct Hc as [Hc0 Hct];
    apply (IH up);
      [ exact Hd
      | intros Hu; rewrite Hc0, (Hup Hu); by destruct (resets _)
      | rewrite Hc0; destruct (resets _); lia
      | by rewrite Hct
      | congruence ].
Qed.

(** C1 (the code falls short of it).  On every trace a handle can deliver
    to a screen started from its initial state, the attempt counter never
    exceeds 1, every timer set waits 2 seconds, and the terminal notice is
    never shown: a forced disconnect schedules one attempt after 2 s, not
    after 1 s, its failure schedules nothing, and the branch that gives up
    after five attempts is never taken. *)
Theorem forced_disconnect_attempts_once (m : SocketManager.t)
    (es : list event) :
  deliverable false es = true →
  let s := run es (init m) in
  reconnectAttempts s ≤ 1 ∧
  Forall (λ d, d = 2000%Z) (timeouts (effects s)) ∧
  fatal_notices (effects s) = 0.
Proof.
  intros Hd. cbn zeta.
  apply (deliverable_run es false (init m) Hd);
    [discriminate | simpl; lia | apply Forall_nil_2 | reflexivity].
Qed.

End GameScreenMore.

(** ** The lobby screen: times, joins, loading flags and the room lists *)

Section LobbyMore.
Import Truco Lobby.

Context (playerName : string) (gameConfig : GameConfig).
Context (trim toUpperCase : string → string).

(** X19.  The age shown for a room is "Ahora" below one minute, also for a
    creation time in the future; whole minutes from 1 to 59 below one hour;
    and whole hours from then on, which the two roundings of the code make
    the elapsed time divided by an hour, rounded down. *)
Theorem time_ago_cases (now date : Z) :
  let elapsed := (now - date)%Z in
  ((elapsed < 60000)%Z → formatTimeAgo now date = "Ahora") ∧
  ((60000 ≤ elapsed < 3600000)%Z →
   formatTimeAgo now date = pretty (elapsed / 60000)%Z +:+ "m" ∧
   (1 ≤ elapsed / 60000 ≤ 59)%Z) ∧
  ((3600000 ≤ elapsed)%Z →
   formatTimeAgo now date = pretty (elapsed / 3600000)%Z +:+ "h" ∧
   (1 ≤ elapsed / 3600000)%Z).
Proof.
  cbn zeta. unfold formatTimeAgo. cbn zeta.
  set (d := (now - date)%Z). split; [| split].
  - intros Hd.
    assert (d / 60000 < 1)%Z by (apply Z.div_lt_upper_bound; lia).
    destruct (Z.ltb_spec (d / 60000) 1); [done | lia].
  - intros [Hlo Hhi].
    assert (1 ≤ d / 60000)%Z by (apply Z.div_le_lower_bound; lia).
    assert (d / 60000 < 60)%Z by (apply Z.div_lt_upper_bound; lia).
    destruct (Z.ltb_spec (d / 60000) 1); [lia |].
    destruct (Z.ltb_spec (d / 60000) 60); [| lia].
    split; [done | lia].
  - intros Hd.
    assert (60 ≤ d / 60000)%Z by (apply Z.div_le_lower_bound; lia).
    assert (1 ≤ d / 3600000)%Z by (apply Z.div_le_lower_bound; lia).
    destruct (Z.ltb_spec (d / 60000) 1); [lia |].
    destruct (Z.ltb_spec (d / 60000) 60); [lia |].
    rewrite Z.div_div by lia. split; [done | lia].
Qed.

(** X20.  Three of the ways into a room never pass an empty or absent room
    id to [onJoinRoom]: the join of a listed or typed room, the button of
    the created room, and the acknowledgement of a quick match.  Each calls
    it at most once, and the first prefers the id it is given to the typed
    code. *)
Theorem joins_name_a_room (s : state) :
  let named (after : state) :=
    ∃ l, joins (effects after) = joins (effects s) ++ l ∧
         length l ≤ 1 ∧
         Forall (λ target, ∃ id, target = Some id ∧ id ≠ "") l in
  (∀ roomId, named (handleJoinRoom trim roomId s)) ∧
  named (handleJoinCreatedRoom s) ∧
  (∀ r, named (ack_quick_match r s)) ∧
  (∀ id, id ≠ "" →
     joins (effects (handleJoinRoom trim (Some id) s))
     = joins (effects s) ++ [Some id]).
Proof.
  cbn zeta.
  assert (∀ id, Js.truthy id = true →
    ∃ l, joins (effects (add_effect (JoinRoom (Some id)) s))
         = joins (effects s) ++ l ∧ length l ≤ 1 ∧
         Forall (λ target, ∃ i, target = Some i ∧ i ≠ "") l) as Hadd.
  { intros id Hid%truthy_nonempty. exists [Some id].
    unfold add_effect, joins. simpl. rewrite omap_app. simpl.
    split; [done |]. split; [lia |]. apply Forall_singleton. by exists id. }
  assert (∃ l, joins (effects s) = joins (effects s) ++ l ∧ length l ≤ 1 ∧
               Forall (λ target, ∃ i, target = Some i ∧ i ≠ "") l) as Hnone.
  { exists []. rewrite app_nil_r. split; [done |]. split; [simpl; lia | done]. }
  split; [| split; [| split]].
  - intros roomId. unfold handleJoinRoom.
    destruct (Js.truthy _) eqn:E; [by apply Hadd | exact Hnone].
  - unfold handleJoinCreatedRoom.
    destruct (createdRoomId s) as [id|]; simpl; [| exact Hnone].
    destruct (Js.truthy id) eqn:E; [by apply Hadd | exact Hnone].
  - intros r. unfold ack_quick_match.
    destruct (success r).
    + destruct (roomId r) as [id|]; simpl; [| exact Hnone].
      destruct (Js.truthy id) eqn:E; [| exact Hnone].
      destruct (Hadd id E) as (l & Hl & Hrest). exists l. split; [| done].
      unfold add_effect, joins in *. simpl in *. exact Hl.
    + exists []. unfold add_effect, joins. simpl. rewrite omap_app. simpl.
      split; [done |]. split; [simpl; lia | done].
  - intros id Hid%truthy_nonempty. unfold handleJoinRoom. simpl.
    rewrite Hid. simpl. rewrite Hid. unfold add_effect, joins. simpl.
    by rewrite omap_app.
Qed.

(** X21.  Without a cached socket the lobby sends nothing and changes
    nothing: creating a room, the quick match, joining by code and the
    refresh of the room list all return at once. *)
Theorem lobby_needs_socket (s : state) :
  SocketManager.getSocket (manager s) = None →
  handleCreateRoom playerName gameConfig s = s ∧
  handleQuickMatch gameConfig s = s ∧
  handleJoinByCode playerName trim toUpperCase s = s ∧
  (∀ connected_seen, fetchWaitingRooms connected_seen s = s).
Proof.
  intros Hnone.
  assert (has_socket s = false) as Hs.
  { unfold has_socket. apply bool_decide_eq_false. rewrite Hnone.
    by intros [x Hx]. }
  unfold handleCreateRoom, handleQuickMatch, handleJoinByCode,
    fetchWaitingRooms. rewrite Hs. done.
Qed.

(** X22.  The quick-match button stays in its loading state after the
    acknowledgement exactly when the server accepted the request without
    naming a room; the [match:found] push then ends it and enters the room
    it names. *)
Theorem quick_match_loading (r : Response) (found : string) (s : state) :
  is_Some (SocketManager.getSocket (manager s)) →
  let waiting := acknowledge quick_matched r (handleQuickMatch gameConfig s) in
  quickMatchLoading waiting = success r && negb (Js.truthy_opt (roomId r)) ∧
  (quickMatchLoading waiting = true → joins (effects waiting) = joins (effects s)) ∧
  quickMatchLoading (on_match_found found waiting) = false ∧
  joins (effects (on_match_found found waiting))
  = joins (effects waiting) ++ [Some found].
Proof.
  intros Hsock%lobby_has_socket_spec. cbn zeta.
  unfold handleQuickMatch. rewrite Hsock. simpl.
  unfold ack_quick_match, on_match_found, add_effect, joins. simpl.
  destruct (success r); [destruct (Js.truthy_opt (roomId r)) |]; simpl;
    rewrite ?omap_app; simpl; rewrite ?app_nil_r;
    (split; [done |]); (split; [done |]); (split; [done |]);
    by rewrite ?omap_app.
Qed.

(** X23.  When the acknowledgement of [room:create] carries no code, or an
    empty one, the access code shown is the room id; and when it carries no
    room id, the card shows the create button again. *)
Theorem access_code_falls_back (seen : bool) (r : Response) (s : state) :
  success r = true →
  resp_code r = None ∨ resp_code r = Some "" →
  let s' := acknowledge (room_created seen) r s in
  (∀ id, roomId r = Some id → id ≠ "" →
     ∃ enter,
       createCard playerName gameConfig s'
       = Created (Some id) (getConfigBadge gameConfig) enter ∧
       effects (onClick enter s') = effects s' ++ [JoinRoom (Some id)]) ∧
  (roomId r = None ∨ roomId r = Some "" →
     ∃ create,
       createCard playerName gameConfig s' = NotCreated create ∧
       caption create = "Crear Nueva Sala").
Proof.
  intros Hok Hcode. cbn zeta. simpl. unfold ack_create_room. rewrite Hok.
  assert (Js.or_else (resp_code r) "" = "") as Hc by (by destruct Hcode as [-> | ->]).
  rewrite Hc.
  set (s' := fetchWaitingRooms seen _).
  assert (createdRoomId s' = roomId r) as Hid'.
  { unfold s', fetchWaitingRooms. by destruct (_ && _). }
  assert (createdRoomCode s' = "") as Hcode'.
  { unfold s', fetchWaitingRooms. by destruct (_ && _). }
  unfold createCard, shownCode. rewrite Hid', Hcode'. split.
  - intros id Hid Hne%truthy_nonempty. rewrite Hid. simpl. rewrite Hne. simpl.
    eexists. split; [reflexivity |]. simpl.
    unfold handleJoinCreatedRoom. rewrite Hid', Hid. simpl. by rewrite Hne.
  - intros [-> | ->]; simpl; eexists; (split; [reflexivity |]); simpl.
    + unfold s', fetchWaitingRooms. by destruct (_ && _).
    + unfold s', fetchWaitingRooms. by destruct (_ && _).
Qed.

Lemma filter_sublist {A} (f : A → bool) (l : list A) :
  List.filter f l `sublist_of` l.
Proof.
  induction l as [| x l IH]; simpl; [done |].
  destruct (f x); [by apply sublist_skip | by apply sublist_cons].
Qed.

(** X24.  A room is compatible exactly when its configuration is the
    player's.  The compatible rooms are the fetched ones with some left out,
    in the same order, so their count never exceeds the total; the two
    counts agree exactly when every fetched room is compatible; and
    filtering the compatible rooms again leaves them all. *)
Theorem compatible_rooms_stats (s : state) :
  (∀ room, compatible gameConfig room = true ↔ config room = gameConfig) ∧
  compatibleRooms gameConfig s `sublist_of` waitingRooms s ∧
  compatibleCount gameConfig s ≤ totalRooms s ∧
  (compatibleCount gameConfig s = totalRooms s ↔
   Forall (λ room, config room = gameConfig) (waitingRooms s)) ∧
  compatibleRooms gameConfig (set_waitingRooms (compatibleRooms gameConfig s) s)
  = compatibleRooms gameConfig s.
Proof.
  assert (∀ room, compatible gameConfig room = true ↔ config room = gameConfig)
    as Hcompat.
  { intros room. rewrite compatible_spec.
    destruct (config room) as [p f], gameConfig as [p' f']. simpl.
    split; [by intros [-> ->] | by intros [= -> ->]]. }
  split; [exact Hcompat |].
  unfold compatibleCount, totalRooms, compatibleRooms. simpl.
  split; [apply filter_sublist |].
  split; [apply sublist_length, filter_sublist |].
  split.
  - split.
    + intros Hlen. apply filter_length_forallb in Hlen.
      rewrite forallb_forall in Hlen. apply Forall_forall.
      intros room Hin%list_elem_of_In. by apply Hcompat, Hlen.
    + intros Hall. rewrite forallb_filter_id; [done |].
      apply forallb_forall. intros room Hin%list_elem_of_In.
      rewrite Forall_forall in Hall. by apply Hcompat, Hall.
  - apply forallb_filter_id, forallb_filter.
Qed.

End LobbyMore.

(** ** The page: what navigation keeps *)

Section PageFacts.
Import Truco Page.

Lemma page_run_snoc es e s : run (es ++ [e]) s = step e (run es s).
Proof. unfold run. by rewrite foldl_app. Qed.

Lemma navigation_snoc es e : ∀ s,
  navigation (es ++ [e]) s = navigation es s && offered (run es s) e.
Proof.
  induction es as [| x es IH]; intros s; simpl.
  - by rewrite andb_true_r.
  - rewrite IH. by rewrite andb_assoc.
Qed.

Lemma last_start_snoc es e :
  last_start (es ++ [e])
  = match e with Start n c => Some (n, c) | _ => last_start es end.
Proof.
  unfold last_start. rewrite omap_app.
  destruct e; simpl; rewrite ?app_nil_r; try done. apply last_snoc.
Qed.

Lemma last_join_snoc es e :
  last_join (es ++ [e])
  = match e with JoinRoom i => Some i | _ => last_join es end.
Proof.
  unfold last_join. rewrite omap_app.
  destruct e; simpl; rewrite ?app_nil_r; try done. apply last_snoc.
Qed.

(** X25.  Whatever the order of the callbacks, the page holds the name and
    the configuration of the last start and the room of the last join (the
    initial ones if there was none): going back forgets nothing.  And when
    every callback comes from the screen on display, the lobby and the game
    screen are shown only after a start, and the game screen only after a
    join. *)
Theorem page_navigation (es : list event) :
  let s := run es init in
  playerName s = default "" (fst <$> last_start es) ∧
  gameConfig s
  = default {| maxPoints := 15; withFlor := true |} (snd <$> last_start es) ∧
  roomId s = default "" (last_join es) ∧
  (navigation es init = true →
   (currentScreen s = start ∨ is_Some (last_start es)) ∧
   (currentScreen s = game → is_Some (last_join es))).
Proof.
  cbn zeta. induction es as [| e es IH] using rev_ind.
  { simpl. repeat split; try done. by left. }
  destruct IH as (Hn & Hc & Hr & Hnav).
  rewrite page_run_snoc, last_start_snoc, last_join_snoc, navigation_snoc.
  split; [| split; [| split]].
  - destruct e; simpl; done.
  - destruct e; simpl; done.
  - destruct e; simpl; done.
  - intros [Hes Hoff]%andb_true_iff. destruct (Hnav Hes) as [Hs Hg].
    unfold offered in Hoff.
    destruct e; simpl; destruct (currentScreen (run es init)) eqn:E;
      try discriminate Hoff; split; try (by left); try (by right);
      try discriminate; try (by intros _); try (by eexists).
    + right. by destruct Hs.
    + right. by destruct Hs.
Qed.

End PageFacts.

(** ** The card: what it shows and when it can be clicked *)

Section CardFacts.
Import Truco CardView.

Context {Handler : Type} (cn : list (option string) → string).

(** X26.  The rank table covers the forty cards of the deck: it has a text
    for the ranks 1 to 7 and 10 to 12 and for no other number, 8 and 9
    included, and no two ranks share a text. *)
Theorem rank_display_table (rank other : Z) :
  (is_Some (RANK_DISPLAY rank) ↔ (1 ≤ rank ≤ 7 ∨ 10 ≤ rank ≤ 12)%Z) ∧
  (is_Some (RANK_DISPLAY rank) → RANK_DISPLAY rank = RANK_DISPLAY other →
   rank = other).
Proof.
  assert (∀ r, is_Some (RANK_DISPLAY r) → (1 ≤ r ≤ 7 ∨ 10 ≤ r ≤ 12)%Z) as Hdom.
  { intros r [x Hx]. destruct r as [|p|p]; try discriminate Hx.
    do 4 (try destruct p as [p|p|]); try discriminate Hx; lia. }
  split.
  - split; [apply Hdom |].
    intros H.
    assert (rank = 1 ∨ rank = 2 ∨ rank = 3 ∨ rank = 4 ∨ rank = 5 ∨ rank = 6 ∨
            rank = 7 ∨ rank = 10 ∨ rank = 11 ∨ rank = 12)%Z as Hr by lia.
    repeat (destruct Hr as [-> | Hr]); try subst rank; by eexists.
  - intros Hsome Heq.
    assert (is_Some (RANK_DISPLAY other)) as Hother by (by rewrite <- Heq).
    apply Hdom in Hsome, Hother.
    assert (rank = 1 ∨ rank = 2 ∨ rank = 3 ∨ rank = 4 ∨ rank = 5 ∨ rank = 6 ∨
            rank = 7 ∨ rank = 10 ∨ rank = 11 ∨ rank = 12)%Z as Hr by lia.
    assert (other = 1 ∨ other = 2 ∨ other = 3 ∨ other = 4 ∨ other = 5 ∨
            other = 6 ∨ other = 7 ∨ other = 10 ∨ other = 11 ∨ other = 12)%Z
      as Ho by lia.
    clear Hsome Hother.
    repeat (destruct Hr as [-> | Hr]); try subst rank;
      repeat (destruct Ho as [-> | Ho]); try subst other;
      first [reflexivity | discriminate Heq].
Qed.

(** X27.  A card that lies face down is drawn without looking at the card:
    any two cards give the same element.  Face down or up, a disabled card
    has no click handler and an enabled one has the handler it was given.
    Face up, a card of rank 8 or 9 shows its suit and no rank. *)
Theorem card_rendering (p : @CardProps Handler) :
  (faceDown p = true →
   ∀ c, CardComponent cn p
        = CardComponent cn (mkProps c (onClick p) (disabled p) (size p) true)) ∧
  handler (CardComponent cn p) = (if disabled p then None else onClick p) ∧
  (faceDown p = false →
   RANK_DISPLAY (rank (card p)) = None →
   (children (CardComponent cn p)).*2
   = [None; Some (SUIT_SYMBOLS (suit (card p))); None]).
Proof.
  unfold CardComponent. split; [| split].
  - intros Hd c. simpl. by rewrite Hd.
  - by destruct (faceDown p).
  - intros Hd Hr. rewrite Hd. simpl. by rewrite Hr.
Qed.

End CardFacts.

(** ** The further properties at work on concrete runs *)

(** C1 at work: the screen mounts and connects, the server disconnects it,
    the timer fires and the rejoin is refused. *)
Lemma forced_disconnect_attempts_once_witness :
  let es :=
    [GameScreen.Mount None; GameScreen.SocketConnect] ++
    Examples.failed_attempt in
  let s := GameScreen.run "R1" "Ana" es (GameScreen.init Examples.manager0) in
  GameScreen.timeouts (GameScreen.effects s) = [2000%Z] ∧
  GameScreen.reconnectAttempts s = 1 ∧
  GameScreen.reconnecting s = true ∧
  GameScreen.shown (GameScreen.effects s) = [] ∧
  GameScreen.fatal_notices (GameScreen.effects s) = 0.
Proof.
  intros es s.
  destruct (forced_disconnect_attempts_once "R1" "Ana" Examples.manager0 es
              eq_refl) as (_ & _ & Hnotice).
  split; [reflexivity |]. split; [reflexivity |]. split; [reflexivity |].
  split; [reflexivity | exact Hnotice].
Defined.

(** X6 at work: the first forced disconnect of the connected screen. *)
Lemma timer_only_on_forced_disconnect_witness :
  GameScreen.reconnectAttempts Examples.game0 = 0 ∧
  GameScreen.reconnecting
    (GameScreen.step "R1" "Ana"
       (GameScreen.SocketDisconnect "io server disconnect") Examples.game0)
  = true.
Proof.
  split; [reflexivity |].
  destruct (timer_only_on_forced_disconnect "R1" "Ana"
              (GameScreen.SocketDisconnect "io server disconnect")
              Examples.game0 2000%Z) as (_ & _ & _ & Hrec).
  - vm_compute. apply list_elem_of_here.
  - exact Hrec.
Defined.

(** X7 at work: five failed attempts, the socket connects, the server
    disconnects again. *)
Lemma reset_restarts_schedule_witness :
  let s :=
    GameScreen.run "R1" "Ana" Examples.five_failed_attempts Examples.game0 in
  let s' :=
    GameScreen.run "R1" "Ana"
      [GameScreen.SocketConnect;
       GameScreen.SocketDisconnect "io server disconnect"] s in
  GameScreen.reconnectAttempts s = 5 ∧
  GameScreen.reconnectAttempts s' = 1 ∧
  GameScreen.timeouts (GameScreen.effects s')
  = [2000; 4000; 8000; 10000; 10000; 2000]%Z.
Proof.
  intros s s'. split; [reflexivity |].
  exact (reset_restarts_schedule "R1" "Ana" GameScreen.SocketConnect s eq_refl).
Defined.

(** X8 at work: a call of real envido. *)
Lemma flag_is_a_known_tag_witness :
  let es :=
    [GameScreen.Mount None; GameScreen.SocketConnect;
     GameScreen.Clicked (GameScreen.CallEnvido GameScreen.real_envido)] in
  GameScreen.actionInProgress
    (GameScreen.run "R1" "Ana" es (GameScreen.init Examples.manager0))
  = Some "calling-real_envido" ∧
  "calling-real_envido" ∈ GameScreen.action_flags.
Proof.
  intros es. split; [reflexivity |].
  exact (flag_is_a_known_tag "R1" "Ana" Examples.manager0 es
           "calling-real_envido" eq_refl).
Defined.

(** X10 at work: the rejoin sent when the reconnect timer fires. *)
Lemma requests_target_own_room_witness :
  GameScreen.new_effects "R1" "Ana" GameScreen.TimerFired Examples.game0
  = [GameScreen.Emit (GameScreen.player_join "R1" "Ana")
       GameScreen.join_on_reconnect] ∧
  GameScreen.request_room (GameScreen.player_join "R1" "Ana") = "R1".
Proof.
  split; [reflexivity |].
  destruct (requests_target_own_room "R1" "Ana" GameScreen.TimerFired
              Examples.game0 (GameScreen.player_join "R1" "Ana")
              GameScreen.join_on_reconnect) as [Hroom _].
  - vm_compute. apply list_elem_of_here.
  - exact Hroom.
Defined.

(** X14 at work: the join carries the phase, the push the turn owner, and
    the scores held before the join are gone. *)
Lemma join_replaces_then_push_merges_witness :
  let s :=
    GameScreen.set_gameState {[ "scores" := Truco.VObj [] ]} Examples.game0 in
  let r :=
    {| GameScreen.success := true;
       GameScreen.error := None;
       GameScreen.resp_room := None;
       GameScreen.resp_gameState := Some {[ "phase" := Truco.VStr "envido" ]};
       GameScreen.resp_hand := None |} in
  let upd : gmap string Truco.Value := {[ "turnPlayerId" := Truco.VStr "p1" ]} in
  let g :=
    GameScreen.gameState
      (GameScreen.run "R1" "Ana"
         [GameScreen.Acked GameScreen.join_on_connect r;
          GameScreen.GameUpdate upd] s) in
  g !! "phase" = Some (Truco.VStr "envido") ∧
  g !! "turnPlayerId" = Some (Truco.VStr "p1") ∧
  g !! "scores" = None.
Proof.
  intros s r upd g. subst g.
  rewrite (join_replaces_then_push_merges "R1" "Ana" r upd s eq_refl).
  split; [reflexivity |]. split; reflexivity.
Defined.


(** X17 at work: the first attempt of the connected screen is refused. *)
Lemma failed_rejoin_is_silent_witness :
  let s' :=
    GameScreen.run "R1" "Ana" Examples.failed_attempt Examples.game0 in
  GameScreen.reconnecting s' = true ∧
  GameScreen.shown (GameScreen.effects s') = [] ∧
  GameScreen.timeouts (GameScreen.effects s') = [2000%Z].
Proof.
  intros s'.
  destruct (failed_rejoin_is_silent "R1" "Ana" Examples.refused Examples.game0)
    as (Hrec & _ & Hshown & Htimers & _).
  - vm_compute. lia.
  - reflexivity.
  - split; [exact Hrec |]. split; [exact Hshown | exact Htimers].
Defined.

(** X21 at work: a lobby whose effect has not run yet. *)
Lemma lobby_needs_socket_witness :
  let s := Lobby.init Examples.manager0 in
  Lobby.handleCreateRoom "Ana" Examples.config15 s = s ∧
  Lobby.handleQuickMatch Examples.config15 s = s.
Proof.
  intros s.
  destruct (lobby_needs_socket "Ana" Examples.config15 id id s eq_refl)
    as (Hcreate & Hquick & _).
  split; [exact Hcreate | exact Hquick].
Defined.

(** X22 at work: the server queues the player, then finds a match. *)
Lemma quick_match_loading_witness :
  let queued :=
    {| Lobby.success := true; Lobby.error := None; Lobby.roomId := None;
       Lobby.resp_code := None; Lobby.rooms := None |} in
  let waiting :=
    Lobby.acknowledge Lobby.quick_matched queued
      (Lobby.handleQuickMatch Examples.config15 Examples.lobby0) in
  Lobby.quickMatchLoading waiting = true ∧
  Lobby.quickMatchLoading (Lobby.on_match_found "R7" waiting) = false ∧
  Lobby.joins (Lobby.effects (Lobby.on_match_found "R7" waiting)) = [Some "R7"].
Proof.
  intros queued waiting.
  destruct (quick_match_loading Examples.config15 queued "R7" Examples.lobby0)
    as (Hload & _ & Hdone & Hjoin).
  - eexists. reflexivity.
  - split; [exact Hload |]. split; [exact Hdone | exact Hjoin].
Defined.

(** X23 at work: a room created without a code. *)
Lemma access_code_falls_back_witness :
  let r :=
    {| Lobby.success := true; Lobby.error := None; Lobby.roomId := Some "R1";
       Lobby.resp_code := None; Lobby.rooms := None |} in
  let s' := Lobby.acknowledge (Lobby.room_created true) r Examples.lobby0 in
  Lobby.shownCode s' = Some "R1" ∧
  ∃ enter,
    Lobby.createCard "Ana" Examples.config15 s'
    = Lobby.Created (Some "R1") (Lobby.getConfigBadge Examples.config15) enter.
Proof.
  intros r s'. split; [reflexivity |].
  destruct (access_code_falls_back "Ana" Examples.config15 true r
              Examples.lobby0 eq_refl (or_introl eq_refl)) as [Hshown _].
  destruct (Hshown "R1" eq_refl) as (enter & Hcard & _); [discriminate |].
  exists enter. exact Hcard.
Defined.
